(** * The statement parser of clang/Parse/ParseStmt.cpp

    A shallow embedding of the recursive-descent statement parser
    ([Parser::ParseStatementOrDeclaration] and the routines it dispatches to)
    together with the properties its specification states about it.

    The parser is a set of mutually recursive member functions that read the
    current token, consume tokens from the token stream and report
    diagnostics.  Here the parser object is an explicit state that every
    routine threads through; the native call stack is a fuel argument that
    bounds the depth of the calls. *)

From Stdlib Require Import List String Bool Arith Lia.

Import ListNotations.

Local Open Scope string_scope.

Local Open Scope list_scope.

(** ** Tokens, diagnostics and the parser state *)

(** [tok::TokenKind].  The enumeration is declared in a header that the
    statement parser includes; these are the kinds the parser names, and a few
    more that stand for the rest of the enumeration. *)
Inductive TokenKind : Set :=
| eof | unknown
| identifier | numeric_constant | string_literal
| l_square | r_square | l_paren | r_paren | l_brace | r_brace
| star | plus | minus | equal | less | plusplus | comma | colon | semi
| kw_break | kw_case | kw_continue | kw_default | kw_do | kw_else | kw_for
| kw_goto | kw_if | kw_int | kw_return | kw_switch | kw_while.

(** The numeric value of the enumerator. *)
Definition TokenKind_value (k : TokenKind) : nat :=
  match k with
  | eof => 0 | unknown => 1 | identifier => 2 | numeric_constant => 3
  | string_literal => 4 | l_square => 5 | r_square => 6 | l_paren => 7
  | r_paren => 8 | l_brace => 9 | r_brace => 10 | star => 11 | plus => 12
  | minus => 13 | equal => 14 | less => 15 | plusplus => 16 | comma => 17
  | colon => 18 | semi => 19 | kw_break => 20 | kw_case => 21
  | kw_continue => 22 | kw_default => 23 | kw_do => 24 | kw_else => 25
  | kw_for => 26 | kw_goto => 27 | kw_if => 28 | kw_int => 29
  | kw_return => 30 | kw_switch => 31 | kw_while => 32
  end.

(** [==] on token kinds. *)
Definition TokenKind_eq_dec (a b : TokenKind) : {a = b} + {a <> b}.
Proof.
  destruct (Nat.eq_dec (TokenKind_value a) (TokenKind_value b)) as [e|n].
  - left. destruct a, b; (reflexivity || discriminate e).
  - right. intros h. apply n. rewrite h. reflexivity.
Defined.

Arguments TokenKind_eq_dec : simpl never.

(** [Tok.getKind() == K] where it is one operand of a boolean operator. *)
Definition isKind (a b : TokenKind) : bool :=
  if TokenKind_eq_dec a b then true else false.

(** [SourceLocation], an opaque position in the source. *)
Definition SourceLocation := nat.

(** [Token]: [getKind()] and [getLocation()]. *)
Record Token : Set := mkToken { Kind : TokenKind; Loc : SourceLocation }.

(** The diagnostic identifiers of namespace [diag] that the parser reports. *)
Inductive DiagID : Set :=
| err_expected_statement_declaration
| err_expected_semi_after
| err_expected_rbrace
| err_expected_lparen_after
| err_expected_while
| err_matching
| err_expected_semi_for
| err_expected_rparen
| ext_c99_variable_decl_in_for_loop
| ext_gnu_indirect_goto.

(** One report to the diagnostic sink: where, what, and the string argument
    ([EmptyString] when the call passes none). *)
Record Diagnostic : Set :=
  mkDiag { DLoc : SourceLocation; DID : DiagID; DMsg : string }.

(** [getLang()]: the two language options the parser reads. *)
Record LangOptions : Set := mkLang { C99 : bool; NoExtensions : bool }.

(** [Declarator::ForContext] and its sibling. *)
Inductive DeclaratorContext : Set := BlockContext | ForContext.

(** A delegation to one of the external collaborators, as recorded in the
    parser's call log. *)
Inductive Call : Set :=
| CallParseExpression
| CallParseParenExpression
| CallParseDeclaration (Ctx : DeclaratorContext)
| CallSkipUntil (T : TokenKind).

(** The parser object.  [Toks] is the rest of the token stream, the current
    token [Tok] first; [Diags] is everything reported so far, oldest first;
    [Calls] logs the delegations to the collaborators, oldest first. *)
Record Parser : Type := mkParser {
  Lang : LangOptions;
  Toks : list Token;
  Diags : list Diagnostic;
  Calls : list Call
}.

(** Past the last token the lexer keeps answering with an [eof] token. *)
Definition eof_token : Token := mkToken eof 0.

(** [Tok]: the lookahead token. *)
Definition Tok (P : Parser) : Token := hd eof_token (Toks P).

(** Modelled from the spec: the token stream's generic advance-by-one,
    [ConsumeToken], which Parser.h declares. *)
Definition ConsumeToken (P : Parser) : Parser :=
  mkParser (Lang P) (tl (Toks P)) (Diags P) (Calls P).

(** Modelled from the spec: the structural consumption of a brace,
    [ConsumeBrace], which Parser.h declares; it advances by one token. *)
Definition ConsumeBrace (P : Parser) : Parser :=
  mkParser (Lang P) (tl (Toks P)) (Diags P) (Calls P).

(** Modelled from the spec: the structural consumption of a parenthesis,
    [ConsumeParen], which Parser.h declares; it advances by one token. *)
Definition ConsumeParen (P : Parser) : Parser :=
  mkParser (Lang P) (tl (Toks P)) (Diags P) (Calls P).

(** Modelled from the spec: [Diag], the report to the diagnostic sink; it
    records the diagnostic and never halts the caller. *)
Definition Diag (L : SourceLocation) (ID : DiagID) (Msg : string)
    (P : Parser) : Parser :=
  mkParser (Lang P) (Toks P) (Diags P ++ [mkDiag L ID Msg]) (Calls P).

(** ** The external collaborators *)

(** What a collaborator does when the parser delegates to it: it consumes
    some tokens of the stream and reports some diagnostics. *)
Definition Effect : Set := (nat * list Diagnostic)%type.

(** The expression parser, the declaration parser and the skip-to-token
    recovery are not part of ParseStmt.cpp; the statement parser is
    parameterised by them.  Each answers, for the language options and the
    rest of the stream, how many tokens it consumes and what it reports. *)
Record Collaborators : Type := mkCollaborators {
  parseExpression : LangOptions -> list Token -> Effect;
  parseParenExpression : LangOptions -> list Token -> Effect;
  looksLikeDeclarationSpecifier : Token -> bool;
  parseDeclaration : DeclaratorContext -> LangOptions -> list Token -> Effect;
  skipUntil : TokenKind -> list Token -> nat
}.

(** The parser after a delegation: the call is logged, the tokens the
    collaborator consumed are gone and its diagnostics are reported. *)
Definition delegate (c : Call) (e : Effect) (P : Parser) : Parser :=
  mkParser (Lang P) (skipn (fst e) (Toks P)) (Diags P ++ snd e)
           (Calls P ++ [c]).

(** The outcome of running a routine: it returns with a new parser state, it
    stops on a failed [assert], or the call depth was not enough. *)
Inductive Outcome : Type :=
| Returned (P : Parser)
| AssertFailed
| OutOfFuel.

(** Sequencing: what follows a call runs only when the call returns. *)
Definition bind (o : Outcome) (k : Parser -> Outcome) : Outcome :=
  match o with
  | Returned P => k P
  | AssertFailed => AssertFailed
  | OutOfFuel => OutOfFuel
  end.

Notation "P <- o ;; k" := (bind o (fun P => k))
  (at level 61, o at next level, right associativity).

(** How the [switch] of [ParseStatementOrDeclaration] is left: by a
    [return], or by a [break] with [SemiError] set. *)
Inductive SwitchExit : Type :=
| ExitReturn (P : Parser)
| ExitBreak (SemiError : string) (P : Parser).

Section StatementParser.

Variable X : Collaborators.

(** The calls of the parser to its collaborators.  Each one is logged and
    has the effect the collaborator answers for the rest of the stream. *)

(** [ParseExpression()]: the expression parser, which "consumes through end
    of expression". *)
Definition ParseExpression (P : Parser) : Parser :=
  delegate CallParseExpression (parseExpression X (Lang P) (Toks P)) P.

(** [ParseParenExpression()]: the expression parser on a parenthesized
    expression. *)
Definition ParseParenExpression (P : Parser) : Parser :=
  delegate CallParseParenExpression
           (parseParenExpression X (Lang P) (Toks P)) P.

(** [isDeclarationSpecifier()]: the lookahead predicate of the declaration
    parser on the current token. *)
Definition isDeclarationSpecifier (P : Parser) : bool :=
  looksLikeDeclarationSpecifier X (Tok P).

(** [ParseDeclaration(Context)]: the declaration parser. *)
Definition ParseDeclaration (Ctx : DeclaratorContext) (P : Parser) : Parser :=
  delegate (CallParseDeclaration Ctx)
           (parseDeclaration X Ctx (Lang P) (Toks P)) P.

(** [SkipUntil(T)]: the skip-to-token recovery; it reports nothing. *)
Definition SkipUntil (T : TokenKind) (P : Parser) : Parser :=
  delegate (CallSkipUntil T) (skipUntil X T (Toks P), []) P.

(** ** The routines without recursion *)

(** [Parser::ParseGotoStatement]. *)
Definition ParseGotoStatement (P : Parser) : Outcome :=
  if TokenKind_eq_dec (Kind (Tok P)) kw_goto then
    let P := ConsumeToken P in
    if TokenKind_eq_dec (Kind (Tok P)) identifier then
      Returned (ConsumeToken P)
    else if isKind (Kind (Tok P)) star && negb (NoExtensions (Lang P)) then
      let P := Diag (Loc (Tok P)) ext_gnu_indirect_goto EmptyString P in
      let P := ConsumeToken P in
      Returned (ParseExpression P)
    else Returned P
  else AssertFailed.

(** [Parser::ParseReturnStatement]. *)
Definition ParseReturnStatement (P : Parser) : Outcome :=
  if TokenKind_eq_dec (Kind (Tok P)) kw_return then
    let P := ConsumeToken P in
    if TokenKind_eq_dec (Kind (Tok P)) semi then Returned P
    else Returned (ParseExpression P)
  else AssertFailed.

(** The three clauses of [Parser::ParseForStatement], each the block the
    source introduces with a comment. *)

(** "Parse the first part of the for specifier." *)
Definition ParseForStatement_first (ForLoc : SourceLocation) (P : Parser)
    : Parser :=
  if TokenKind_eq_dec (Kind (Tok P)) semi then
    ConsumeToken P
  else if isDeclarationSpecifier P then
    let P := if negb (C99 (Lang P))
             then Diag (Loc (Tok P)) ext_c99_variable_decl_in_for_loop
                       EmptyString P
             else P in
    ParseDeclaration ForContext P
  else
    let P := ParseExpression P in
    if TokenKind_eq_dec (Kind (Tok P)) semi then
      ConsumeToken P
    else
      let P := Diag (Loc (Tok P)) err_expected_semi_for EmptyString P in
      let P := Diag ForLoc err_matching EmptyString P in
      SkipUntil semi P.

(** "Parse the second part of the for specifier." and the semicolon after
    it. *)
Definition ParseForStatement_second (ForLoc : SourceLocation) (P : Parser)
    : Parser :=
  let P := if TokenKind_eq_dec (Kind (Tok P)) semi then P
           else ParseExpression P in
  if TokenKind_eq_dec (Kind (Tok P)) semi then
    ConsumeToken P
  else
    let P := Diag (Loc (Tok P)) err_expected_semi_for EmptyString P in
    let P := Diag ForLoc err_matching EmptyString P in
    SkipUntil semi P.

(** "Parse the third part of the for specifier." *)
Definition ParseForStatement_third (P : Parser) : Parser :=
  if TokenKind_eq_dec (Kind (Tok P)) r_paren then P
  else ParseExpression P.

(** ** The mutually recursive routines *)

(** The code after the [switch] of [ParseStatementOrDeclaration]: "If we
    reached this code, the statement must end in a semicolon." *)
Definition AfterSwitch (E : SwitchExit) : Parser :=
  match E with
  | ExitReturn P => P
  | ExitBreak SemiError P =>
      if TokenKind_eq_dec (Kind (Tok P)) semi then
        ConsumeToken P
      else
        let P := Diag (Loc (Tok P)) err_expected_semi_after SemiError P in
        SkipUntil semi P
  end.

(** A [case] of the [switch]: the routine it calls, how it leaves the
    [switch] when the routine has returned, and the code after the
    [switch]. *)
Definition returning (o : Outcome) (k : Parser -> SwitchExit) : Outcome :=
  P <- o ;; Returned (AfterSwitch (k P)).

Fixpoint ParseStatementOrDeclaration (fuel : nat) (OnlyStatement : bool)
    (P : Parser) {struct fuel} : Outcome :=
  match fuel with
  | O => OutOfFuel
  | S fuel =>
    match Kind (Tok P) with
    | l_brace =>
        returning (ParseCompoundStatement fuel P) ExitReturn
    | semi =>
        returning (Returned (ConsumeToken P)) ExitReturn
    | kw_if =>
        returning (ParseIfStatement fuel P) ExitReturn
    | kw_switch =>
        returning (ParseSwitchStatement fuel P) ExitReturn
    | kw_while =>
        returning (ParseWhileStatement fuel P) ExitReturn
    | kw_do =>
        returning (ParseDoStatement fuel P) (ExitBreak "do/while loop")
    | kw_for =>
        returning (ParseForStatement fuel P) ExitReturn
    | kw_goto =>
        returning (ParseGotoStatement P) (ExitBreak "goto statement")
    | kw_continue =>
        returning (Returned (ConsumeToken P))
                  (ExitBreak "continue statement")
    | kw_break =>
        returning (Returned (ConsumeToken P)) (ExitBreak "break statement")
    | kw_return =>
        returning (ParseReturnStatement P) (ExitBreak "return statement")
    | _ =>
        let P := Diag (Loc (Tok P)) err_expected_statement_declaration
                      EmptyString P in
        returning (Returned (SkipUntil semi P)) ExitReturn
    end
  end

(** [Parser::ParseCompoundStatement]. *)
with ParseCompoundStatement (fuel : nat) (P : Parser) {struct fuel}
    : Outcome :=
  match fuel with
  | O => OutOfFuel
  | S fuel =>
    if TokenKind_eq_dec (Kind (Tok P)) l_brace then
      let P := ConsumeBrace P in
      P <- ParseCompoundStatement_loop fuel P ;;
      if TokenKind_eq_dec (Kind (Tok P)) r_brace then
        Returned (ConsumeBrace P)
      else
        Returned (Diag (Loc (Tok P)) err_expected_rbrace EmptyString P)
    else AssertFailed
  end

(** The [while] loop of [ParseCompoundStatement]. *)
with ParseCompoundStatement_loop (fuel : nat) (P : Parser) {struct fuel}
    : Outcome :=
  match fuel with
  | O => OutOfFuel
  | S fuel =>
    if negb (isKind (Kind (Tok P)) r_brace)
       && negb (isKind (Kind (Tok P)) eof) then
      P <- ParseStatementOrDeclaration fuel false P ;;
      ParseCompoundStatement_loop fuel P
    else Returned P
  end

(** [Parser::ParseIfStatement]. *)
with ParseIfStatement (fuel : nat) (P : Parser) {struct fuel} : Outcome :=
  match fuel with
  | O => OutOfFuel
  | S fuel =>
    if TokenKind_eq_dec (Kind (Tok P)) kw_if then
      let P := ConsumeToken P in
      if TokenKind_eq_dec (Kind (Tok P)) l_paren then
        let P := ParseParenExpression P in
        P <- ParseStatementOrDeclaration fuel true P ;;
        if TokenKind_eq_dec (Kind (Tok P)) kw_else then
          let P := ConsumeToken P in
          ParseStatementOrDeclaration fuel true P
        else Returned P
      else
        let P := Diag (Loc (Tok P)) err_expected_lparen_after "if" P in
        Returned (SkipUntil semi P)
    else AssertFailed
  end

(** [Parser::ParseSwitchStatement]. *)
with ParseSwitchStatement (fuel : nat) (P : Parser) {struct fuel}
    : Outcome :=
  match fuel with
  | O => OutOfFuel
  | S fuel =>
    if TokenKind_eq_dec (Kind (Tok P)) kw_switch then
      let P := ConsumeToken P in
      if TokenKind_eq_dec (Kind (Tok P)) l_paren then
        let P := ParseParenExpression P in
        ParseStatementOrDeclaration fuel true P
      else
        let P := Diag (Loc (Tok P)) err_expected_lparen_after "switch" P in
        Returned (SkipUntil semi P)
    else AssertFailed
  end

(** [Parser::ParseWhileStatement]. *)
with ParseWhileStatement (fuel : nat) (P : Parser) {struct fuel}
    : Outcome :=
  match fuel with
  | O => OutOfFuel
  | S fuel =>
    if TokenKind_eq_dec (Kind (Tok P)) kw_while then
      let P := ConsumeToken P in
      if TokenKind_eq_dec (Kind (Tok P)) l_paren then
        let P := ParseParenExpression P in
        ParseStatementOrDeclaration fuel true P
      else
        let P := Diag (Loc (Tok P)) err_expected_lparen_after "while" P in
        Returned (SkipUntil semi P)
    else AssertFailed
  end

(** [Parser::ParseDoStatement]. *)
with ParseDoStatement (fuel : nat) (P : Parser) {struct fuel} : Outcome :=
  match fuel with
  | O => OutOfFuel
  | S fuel =>
    if TokenKind_eq_dec (Kind (Tok P)) kw_do then
      let DoLoc := Loc (Tok P) in
      let P := ConsumeToken P in
      P <- ParseStatementOrDeclaration fuel true P ;;
      if TokenKind_eq_dec (Kind (Tok P)) kw_while then
        let P := ConsumeToken P in
        if TokenKind_eq_dec (Kind (Tok P)) l_paren then
          Returned (ParseParenExpression P)
        else
          let P := Diag (Loc (Tok P)) err_expected_lparen_after "do/while" P in
          Returned (SkipUntil semi P)
      else
        let P := Diag (Loc (Tok P)) err_expected_while EmptyString P in
        let P := Diag DoLoc err_matching EmptyString P in
        Returned (SkipUntil semi P)
    else AssertFailed
  end

(** [Parser::ParseForStatement]. *)
with ParseForStatement (fuel : nat) (P : Parser) {struct fuel} : Outcome :=
  match fuel with
  | O => OutOfFuel
  | S fuel =>
    if TokenKind_eq_dec (Kind (Tok P)) kw_for then
      let ForLoc := Loc (Tok P) in
      let P := ConsumeToken P in
      if TokenKind_eq_dec (Kind (Tok P)) l_paren then
        let LParenLoc := Loc (Tok P) in
        let P := ConsumeParen P in
        let P := ParseForStatement_first ForLoc P in
        let P := ParseForStatement_second ForLoc P in
        let P := ParseForStatement_third P in
        if TokenKind_eq_dec (Kind (Tok P)) r_paren then
          let P := ConsumeParen P in
          ParseStatementOrDeclaration fuel true P
        else
          let P := Diag (Loc (Tok P)) err_expected_rparen EmptyString P in
          let P := Diag LParenLoc err_matching EmptyString P in
          Returned (SkipUntil r_paren P)
      else
        let P := Diag (Loc (Tok P)) err_expected_lparen_after "for" P in
        Returned (SkipUntil semi P)
    else AssertFailed
  end.

(** Modelled from the spec: [ParseStatement], which Parser.h declares, parses
    one body statement "via the Statement Dispatcher".  The routines above
    call it as [ParseStatementOrDeclaration fuel true]. *)
Definition ParseStatement (fuel : nat) (P : Parser) : Outcome :=
  ParseStatementOrDeclaration fuel true P.

End StatementParser.

(** ** Collaborators to run the parser with *)

(** Modelled from the spec: the skip-to-token recovery, [SkipUntil], which
    Parser.cpp defines.  It is a loop over the stream's advance operation
    that "consumes up through the next" target token and stops at the end of
    the input. *)
Fixpoint skip_until (T : TokenKind) (ts : list Token) : nat :=
  match ts with
  | [] => 0
  | t :: ts' =>
      if TokenKind_eq_dec (Kind t) T then 1
      else if TokenKind_eq_dec (Kind t) eof then 0
      else S (skip_until T ts')
  end.

(** The tokens a sample expression is made of. *)
Definition expression_token (t : Token) : bool :=
  match Kind t with
  | identifier | numeric_constant | string_literal
  | star | plus | minus | equal | less | plusplus | comma => true
  | _ => false
  end.

(** Modelled from the spec: an expression parser, which "parses an expression
    and leaves the stream positioned just past it"; this one takes the
    longest run of operand and operator tokens as the expression. *)
Fixpoint expression_length (ts : list Token) : nat :=
  match ts with
  | t :: ts' => if expression_token t then S (expression_length ts') else 0
  | [] => 0
  end.

(** Modelled from the spec: the parenthesized-expression parser, which
    "consumes the full '(' expr ')'". *)
Definition paren_expression_length (ts : list Token) : nat :=
  match ts with
  | t :: ts' =>
      if TokenKind_eq_dec (Kind t) l_paren then
        let n := expression_length ts' in
        match skipn n ts' with
        | c :: _ => if TokenKind_eq_dec (Kind c) r_paren then S (S n) else S n
        | [] => S n
        end
      else 0
  | [] => 0
  end.

(** Modelled from the spec: the declaration parser's lookahead predicate and
    the declaration parser, which "consumes declaration including
    terminator"; here a declaration starts with [int] and ends with its
    semicolon. *)
Definition sample : Collaborators :=
  mkCollaborators
    (fun _ ts => (expression_length ts, []))
    (fun _ ts => (paren_expression_length ts, []))
    (fun t => isKind (Kind t) kw_int)
    (fun _ _ ts => (skip_until semi ts, []))
    skip_until.

(** A stream of tokens of the given kinds, located at 1, 2, 3, ... *)
Fixpoint located (n : SourceLocation) (ks : list TokenKind) : list Token :=
  match ks with
  | [] => []
  | k :: ks' => mkToken k n :: located (S n) ks'
  end.

(** A fresh parser, GNU extensions enabled, C99 mode, on a token stream. *)
Definition start (ks : list TokenKind) : Parser :=
  mkParser (mkLang true false) (located 1 ks) [] [].

(** The same with extensions disabled. *)
Definition start_noext (ks : list TokenKind) : Parser :=
  mkParser (mkLang true true) (located 1 ks) [] [].

(** A set of collaborators whose skip-to-token recovery returns at once,
    without consuming anything. *)
Definition stuck : Collaborators :=
  mkCollaborators
    (fun _ ts => (expression_length ts, []))
    (fun _ ts => (paren_expression_length ts, []))
    (fun t => isKind (Kind t) kw_int)
    (fun _ _ ts => (skip_until semi ts, []))
    (fun _ _ => 0).

(** ** The properties, as the specification words them *)

(** The number of tokens left in the stream. *)
Definition remaining (P : Parser) : nat := List.length (Toks P).

(** The assumption on the skip-to-token recovery: away from the end of the
    input it advances the stream. *)
Definition SkipUntilAdvances (X : Collaborators) : Prop :=
  forall (T : TokenKind) (t : Token) (ts : list Token),
    Kind t <> eof -> 0 < skipUntil X T (t :: ts).

(** The dispatcher returns on every parser with fewer than [N] tokens left,
    does not lengthen the stream, and shortens it unless it is at the end of
    the input. *)
Definition ReturnsBelow (X : Collaborators) (N : nat) : Prop :=
  forall (b : bool) (P : Parser),
    remaining P < N ->
    exists (fuel : nat) (P' : Parser),
      ParseStatementOrDeclaration X fuel b P = Returned P' /\
      remaining P' <= remaining P /\
      (Kind (Tok P) <> eof -> remaining P' < remaining P).

(** The recursive routines, without the [OnlyStatement] flag. *)
Definition Routine : Type := nat -> Parser -> Outcome.

(** A result obtained with some call depth is obtained with any larger
    one. *)
Definition Monotone (f : Routine) : Prop :=
  forall (n m : nat) (P P' : Parser),
    n <= m -> f n P = Returned P' -> f m P = Returned P'.

(** The same for the results obtained with call depth [N]. *)
Definition MonotoneUpTo (N : nat) (f : Routine) : Prop :=
  forall (m : nat) (P P' : Parser),
    N <= m -> f N P = Returned P' -> f m P = Returned P'.

(** The kinds of token a labeled statement or a non-empty expression
    statement starts with. *)
Definition starts_labeled_or_expression_statement (k : TokenKind) : bool :=
  match k with
  | identifier | kw_case | kw_default
  | numeric_constant | string_literal | l_paren
  | star | plus | minus | plusplus => true
  | _ => false
  end.

(** The statements whose [case] leaves the [switch] of the dispatcher by
    [break]: the routine that parses the statement at [P], the [SemiError]
    label the case sets, and the parser state the routine returns with. *)
Inductive FallsThrough (X : Collaborators) (fuel : nat) (P : Parser)
    : string -> Parser -> Prop :=
| FallsThrough_do (P1 : Parser) :
    Kind (Tok P) = kw_do -> ParseDoStatement X fuel P = Returned P1 ->
    FallsThrough X fuel P "do/while loop" P1
| FallsThrough_goto (P1 : Parser) :
    Kind (Tok P) = kw_goto -> ParseGotoStatement X P = Returned P1 ->
    FallsThrough X fuel P "goto statement" P1
| FallsThrough_continue :
    Kind (Tok P) = kw_continue ->
    FallsThrough X fuel P "continue statement" (ConsumeToken P)
| FallsThrough_break :
    Kind (Tok P) = kw_break ->
    FallsThrough X fuel P "break statement" (ConsumeToken P)
| FallsThrough_return (P1 : Parser) :
    Kind (Tok P) = kw_return -> ParseReturnStatement X P = Returned P1 ->
    FallsThrough X fuel P "return statement" (P1).

(** The enforcement step as the specification words it: from [P1], a
    semicolon is consumed; anything else gets one missing-semicolon
    diagnostic with the label, at the current token, and the skip to the next
    semicolon. *)
Definition SemicolonEnforced (X : Collaborators) (SemiError : string)
    (P1 P' : Parser) : Prop :=
  (Kind (Tok P1) = semi /\
   P' = mkParser (Lang P1) (tl (Toks P1)) (Diags P1) (Calls P1))
  \/
  (Kind (Tok P1) <> semi /\
   P' = mkParser (Lang P1)
          (skipn (skipUntil X semi (Toks P1)) (Toks P1))
          (Diags P1 ++ [mkDiag (Loc (Tok P1)) err_expected_semi_after SemiError])
          (Calls P1 ++ [CallSkipUntil semi])).

(** From [P] the statement dispatcher is invoked again and again, as long as
    the current token is neither a closing brace nor the end of the input;
    [Pl] is the state in which that stops. *)
Inductive DispatchedUntilClose (X : Collaborators)
    : Parser -> Parser -> Prop :=
| Dispatched_stop (P : Parser) :
    Kind (Tok P) = r_brace \/ Kind (Tok P) = eof ->
    DispatchedUntilClose X P P
| Dispatched_step (fuel : nat) (P P1 Pl : Parser) :
    Kind (Tok P) <> r_brace -> Kind (Tok P) <> eof ->
    ParseStatementOrDeclaration X fuel false P = Returned P1 ->
    DispatchedUntilClose X P1 Pl ->
    DispatchedUntilClose X P Pl.

(** The contract of the compound-statement parser as the specification
    words it: the opening brace is consumed, the dispatcher is invoked until
    a closing brace or the end of the input, and then either the closing
    brace is consumed, or, at the end of the input, one "expected closing
    brace" diagnostic is reported and nothing more is consumed. *)
Definition CompoundStatementParsed (X : Collaborators) (P P' : Parser)
    : Prop :=
  exists Pl : Parser,
    DispatchedUntilClose X (ConsumeBrace P) Pl /\
    ((Kind (Tok Pl) = r_brace /\
      P' = mkParser (Lang Pl) (tl (Toks Pl)) (Diags Pl) (Calls Pl))
     \/
     (Kind (Tok Pl) = eof /\
      P' = mkParser (Lang Pl) (Toks Pl)
             (Diags Pl ++
              [mkDiag (Loc (Tok Pl)) err_expected_rbrace EmptyString])
             (Calls Pl))).

(** The two error exits of the do-routine, for a [do] at [P] whose body
    statement left the parser at [Pb]: the state the routine returns with
    after its diagnostics and its skip to the next semicolon. *)
Inductive DoRecovery (X : Collaborators) (P Pb : Parser) : Parser -> Prop :=
| DoRecovery_missing_while :
    Kind (Tok Pb) <> kw_while ->
    DoRecovery X P Pb
      (mkParser (Lang Pb)
         (skipn (skipUntil X semi (Toks Pb)) (Toks Pb))
         (Diags Pb ++ [mkDiag (Loc (Tok Pb)) err_expected_while EmptyString;
                       mkDiag (Loc (Tok P)) err_matching EmptyString])
         (Calls Pb ++ [CallSkipUntil semi]))
| DoRecovery_missing_lparen :
    Kind (Tok Pb) = kw_while ->
    Kind (Tok (ConsumeToken Pb)) <> l_paren ->
    DoRecovery X P Pb
      (mkParser (Lang Pb)
         (skipn (skipUntil X semi (tl (Toks Pb))) (tl (Toks Pb)))
         (Diags Pb ++ [mkDiag (Loc (Tok (ConsumeToken Pb)))
                              err_expected_lparen_after "do/while"])
         (Calls Pb ++ [CallSkipUntil semi])).

(** The recovery from a missing semicolon after a clause of the for
    statement whose expression left the parser at [Pe]: the two diagnostics,
    the second at the [for], and the skip to the next semicolon. *)
Definition ForClauseRecovered (X : Collaborators) (ForLoc : SourceLocation)
    (Pe : Parser) : Parser :=
  mkParser (Lang Pe)
    (skipn (skipUntil X semi (Toks Pe)) (Toks Pe))
    (Diags Pe ++ [mkDiag (Loc (Tok Pe)) err_expected_semi_for EmptyString;
                  mkDiag ForLoc err_matching EmptyString])
    (Calls Pe ++ [CallSkipUntil semi]).

(** The end of the for statement from the state [P5] in which the three
    clauses are parsed: the check for the closing parenthesis and, if it is
    there, the body statement. *)
Definition ForClosingParenAndBody (X : Collaborators) (fuel : nat)
    (LParenLoc : SourceLocation) (P5 : Parser) : Outcome :=
  if TokenKind_eq_dec (Kind (Tok P5)) r_paren then
    ParseStatement X fuel (ConsumeParen P5)
  else
    Returned
      (mkParser (Lang P5)
         (skipn (skipUntil X r_paren (Toks P5)) (Toks P5))
         (Diags P5 ++ [mkDiag (Loc (Tok P5)) err_expected_rparen EmptyString;
                       mkDiag LParenLoc err_matching EmptyString])
         (Calls P5 ++ [CallSkipUntil r_paren])).

(** The do statement after its body, as the specification words it.  [Pb]
    is the state the body statement left.  Without [while]: "expected
    'while'" at the current token, "matches this 'do'" at the remembered
    location, and the skip to the next semicolon.  With [while] but without
    the parenthesis: "expected '(' after 'do/while'" and the same skip.
    Otherwise [while] is consumed and the expression parser consumes the
    parenthesized condition.  In every case the stream that is left is the
    one the recovery or the expression parser left: the routine consumes no
    token after them. *)
Definition DoStatementEnd (X : Collaborators) (DoLoc : SourceLocation)
    (Pb : Parser) : Parser :=
  if TokenKind_eq_dec (Kind (Tok Pb)) kw_while then
    let afterWhile := tl (Toks Pb) in
    if TokenKind_eq_dec (Kind (hd eof_token afterWhile)) l_paren then
      let e := parseParenExpression X (Lang Pb) afterWhile in
      mkParser (Lang Pb) (skipn (fst e) afterWhile) (Diags Pb ++ snd e)
               (Calls Pb ++ [CallParseParenExpression])
    else
      mkParser (Lang Pb)
        (skipn (skipUntil X semi afterWhile) afterWhile)
        (Diags Pb ++ [mkDiag (Loc (hd eof_token afterWhile))
                             err_expected_lparen_after "do/while"])
        (Calls Pb ++ [CallSkipUntil semi])
  else
    mkParser (Lang Pb)
      (skipn (skipUntil X semi (Toks Pb)) (Toks Pb))
      (Diags Pb ++ [mkDiag (Loc (Tok Pb)) err_expected_while EmptyString;
                    mkDiag DoLoc err_matching EmptyString])
      (Calls Pb ++ [CallSkipUntil semi]).

(** The clauses of the for header, as the specification words them. *)

(** A clause that is an expression: the expression parser, then the
    required semicolon, which is consumed, or else the recovery. *)
Definition ExpressionThenSemicolon (X : Collaborators)
    (ForLoc : SourceLocation) (P : Parser) : Parser :=
  let Pe := ParseExpression X P in
  if TokenKind_eq_dec (Kind (Tok Pe)) semi then
    mkParser (Lang Pe) (tl (Toks Pe)) (Diags Pe) (Calls Pe)
  else ForClauseRecovered X ForLoc Pe.

(** "First clause: if current token is [;], there is no initializer:
    consume the semicolon.  Else if lookahead indicates a
    declaration-specifier, delegate to the Declaration Parser", after the
    extension warning where the language mode asks for it.  "Else, delegate
    to the Expression Parser for a plain expression, then require and consume
    a semicolon". *)
Definition ForFirstClauseAsSpecified (X : Collaborators)
    (ForLoc : SourceLocation) (P : Parser) : Parser :=
  if TokenKind_eq_dec (Kind (Tok P)) semi then
    mkParser (Lang P) (tl (Toks P)) (Diags P) (Calls P)
  else if looksLikeDeclarationSpecifier X (Tok P) then
    ParseDeclaration X ForContext
      (if C99 (Lang P) then P
       else Diag (Loc (Tok P)) ext_c99_variable_decl_in_for_loop
                 EmptyString P)
  else ExpressionThenSemicolon X ForLoc P.

(** "Second clause (condition): if current token is [;], empty condition.
    Else delegate to the Expression Parser.  Then require/consume a
    semicolon with the identical error-and-recovery pattern". *)
Definition ForSecondClauseAsSpecified (X : Collaborators)
    (ForLoc : SourceLocation) (P : Parser) : Parser :=
  if TokenKind_eq_dec (Kind (Tok P)) semi then
    mkParser (Lang P) (tl (Toks P)) (Diags P) (Calls P)
  else ExpressionThenSemicolon X ForLoc P.

(** "Third clause (increment): if current token is the closing
    parenthesis, empty increment.  Else delegate to the Expression
    Parser." *)
Definition ForThirdClauseAsSpecified (X : Collaborators) (P : Parser)
    : Parser :=
  if TokenKind_eq_dec (Kind (Tok P)) r_paren then P
  else ParseExpression X P.

(** ** Further properties, and the grammar the parser accepts *)

(** [P'] comes from [P] by consuming tokens, reporting diagnostics and
    delegating: the language options are the same, the stream is a suffix of
    the old one, and the diagnostics and the call log have only grown at
    their ends. *)
Definition Extends (P P' : Parser) : Prop :=
  Lang P' = Lang P /\
  (exists n : nat, Toks P' = skipn n (Toks P)) /\
  (exists ds : list Diagnostic, Diags P' = Diags P ++ ds) /\
  (exists cs : list Call, Calls P' = Calls P ++ cs).

(** The parser [P] with earlier diagnostics [D] and earlier calls [C] in
    front of its own. *)
Definition WithHistory (D : list Diagnostic) (C : list Call) (P : Parser)
    : Parser :=
  mkParser (Lang P) (Toks P) (D ++ Diags P) (C ++ Calls P).

Definition OutcomeWithHistory (D : list Diagnostic) (C : list Call)
    (o : Outcome) : Outcome :=
  match o with
  | Returned P => Returned (WithHistory D C P)
  | AssertFailed => AssertFailed
  | OutOfFuel => OutOfFuel
  end.

(** The state after a keyword at [P] that is not followed by an opening
    parenthesis: the keyword is consumed, "expected '(' after" the keyword is
    reported at the next token, and the recovery skips to the next
    semicolon. *)
Definition MissingLParen (X : Collaborators) (After : string) (P : Parser)
    : Parser :=
  mkParser (Lang P)
    (skipn (skipUntil X semi (tl (Toks P))) (tl (Toks P)))
    (Diags P ++ [mkDiag (Loc (Tok (ConsumeToken P))) err_expected_lparen_after
                        After])
    (Calls P ++ [CallSkipUntil semi]).

(** The routine and the keyword name of the statements that start with a
    keyword and a parenthesized expression or header. *)
Inductive ParenthesizedStatement (X : Collaborators)
    : TokenKind -> string -> (nat -> Parser -> Outcome) -> Prop :=
| Parenthesized_if :
    ParenthesizedStatement X kw_if "if" (ParseIfStatement X)
| Parenthesized_switch :
    ParenthesizedStatement X kw_switch "switch" (ParseSwitchStatement X)
| Parenthesized_while :
    ParenthesizedStatement X kw_while "while" (ParseWhileStatement X)
| Parenthesized_for :
    ParenthesizedStatement X kw_for "for" (ParseForStatement X).

(** The token strings the collaborators take as a whole, without a
    diagnostic, under the language options [L]. *)

(** A parenthesized expression: it starts with the parenthesis, and the
    expression parser consumes exactly it, whatever follows. *)
Definition ParenExpression (X : Collaborators) (L : LangOptions)
    (c : list Token) : Prop :=
  Kind (hd eof_token c) = l_paren /\
  forall rest : list Token,
    parseParenExpression X L (c ++ rest) = (List.length c, []).

(** An expression in front of the delimiter [d]: it does not start with
    [d], and the expression parser consumes exactly it when a [d] follows. *)
Definition Expression (X : Collaborators) (L : LangOptions) (d : TokenKind)
    (e : list Token) : Prop :=
  Kind (hd eof_token e) <> d /\ e <> [] /\
  forall (t : Token) (rest : list Token),
    Kind t = d ->
    parseExpression X L (e ++ t :: rest) = (List.length e, []).

(** [expression[opt]] in front of the delimiter [d]. *)
Inductive OptExpression (X : Collaborators) (L : LangOptions)
    (d : TokenKind) : list Token -> Prop :=
| OptExpression_none : OptExpression X L d []
| OptExpression_some (e : list Token) :
    Expression X L d e -> OptExpression X L d e.

(** The first clause of a for header, up to and with its semicolon where it
    has one of its own: nothing, an expression, or, in C99 mode, a
    declaration, which the declaration parser consumes with its
    terminator. *)
Inductive ForInit (X : Collaborators) (L : LangOptions)
    : list Token -> Prop :=
| ForInit_none (t : Token) :
    Kind t = semi -> ForInit X L [t]
| ForInit_expression (e : list Token) (t : Token) :
    Expression X L semi e ->
    looksLikeDeclarationSpecifier X (hd eof_token e) = false ->
    Kind t = semi ->
    ForInit X L (e ++ [t])
| ForInit_declaration (d : list Token) :
    Kind (hd eof_token d) <> semi -> d <> [] ->
    looksLikeDeclarationSpecifier X (hd eof_token d) = true ->
    C99 L = true ->
    (forall rest : list Token,
       parseDeclaration X ForContext L (d ++ rest) = (List.length d, [])) ->
    ForInit X L d.

(** The statements of the grammar in the comment of
    [ParseStatementOrDeclaration] that the routines have a case for.  The
    flag tells whether the statement ends in an [if] without [else], which
    would take an [else] that follows. *)
Inductive Statement (X : Collaborators) (L : LangOptions)
    : bool -> list Token -> Prop :=
| Statement_empty (t : Token) :
    Kind t = semi -> Statement X L false [t]
| Statement_compound (lb rb : Token) (items : list Token) :
    Kind lb = l_brace -> BlockItems X L items -> Kind rb = r_brace ->
    Statement X L false (lb :: items ++ [rb])
| Statement_if (t : Token) (c s : list Token) (o : bool) :
    Kind t = kw_if -> ParenExpression X L c -> Statement X L o s ->
    Statement X L true (t :: c ++ s)
| Statement_if_else (t te : Token) (c s1 s2 : list Token) (o : bool) :
    Kind t = kw_if -> ParenExpression X L c -> Statement X L false s1 ->
    Kind te = kw_else -> Statement X L o s2 ->
    Statement X L o (t :: c ++ s1 ++ te :: s2)
| Statement_switch (t : Token) (c s : list Token) (o : bool) :
    Kind t = kw_switch -> ParenExpression X L c -> Statement X L o s ->
    Statement X L o (t :: c ++ s)
| Statement_while (t : Token) (c s : list Token) (o : bool) :
    Kind t = kw_while -> ParenExpression X L c -> Statement X L o s ->
    Statement X L o (t :: c ++ s)
| Statement_do (t tw tsemi : Token) (s c : list Token) (o : bool) :
    Kind t = kw_do -> Statement X L o s -> Kind tw = kw_while ->
    ParenExpression X L c -> Kind tsemi = semi ->
    Statement X L false (t :: s ++ tw :: c ++ [tsemi])
| Statement_for (t lp tsemi rp : Token) (i e2 e3 s : list Token)
    (o : bool) :
    Kind t = kw_for -> Kind lp = l_paren -> ForInit X L i ->
    OptExpression X L semi e2 -> Kind tsemi = semi ->
    OptExpression X L r_paren e3 -> Kind rp = r_paren ->
    Statement X L o s ->
    Statement X L o (t :: lp :: i ++ e2 ++ tsemi :: e3 ++ rp :: s)
| Statement_goto (t tid tsemi : Token) :
    Kind t = kw_goto -> Kind tid = identifier -> Kind tsemi = semi ->
    Statement X L false [t; tid; tsemi]
| Statement_continue (t tsemi : Token) :
    Kind t = kw_continue -> Kind tsemi = semi ->
    Statement X L false [t; tsemi]
| Statement_break (t tsemi : Token) :
    Kind t = kw_break -> Kind tsemi = semi ->
    Statement X L false [t; tsemi]
| Statement_return (t tsemi : Token) (e : list Token) :
    Kind t = kw_return -> OptExpression X L semi e -> Kind tsemi = semi ->
    Statement X L false (t :: e ++ [tsemi])

(** [block-item-list[opt]]: statements one after the other. *)
with BlockItems (X : Collaborators) (L : LangOptions)
    : list Token -> Prop :=
| BlockItems_nil : BlockItems X L []
| BlockItems_cons (s items : list Token) (o : bool) :
    Statement X L o s -> BlockItems X L items ->
    BlockItems X L (s ++ items).

Scheme Statement_BlockItems_ind := Minimality for Statement Sort Prop
  with BlockItems_Statement_ind := Minimality for BlockItems Sort Prop.

Combined Scheme Statement_mutual_ind
  from Statement_BlockItems_ind, BlockItems_Statement_ind.

(** A token that can be the first of a statement of the grammar. *)
Definition starts_statement (k : TokenKind) : bool :=
  match k with
  | l_brace | semi | kw_if | kw_switch | kw_while | kw_do | kw_for
  | kw_goto | kw_continue | kw_break | kw_return => true
  | _ => false
  end.

(** The parser is at the end of a statement that left the flag [o]: an
    [else] does not follow a statement that would take it. *)
Definition NoDanglingElse (o : bool) (rest : list Token) : Prop :=
  o = true -> Kind (hd eof_token rest) <> kw_else.

(** * Proofs *)

(** ** Basic facts about the state operations *)

Section Basics.

Variable X : Collaborators.

Lemma Tok_cons (L : LangOptions) (t : Token) (ts : list Token)
    (D : list Diagnostic) (C : list Call) :
  Tok (mkParser L (t :: ts) D C) = t.
Proof. reflexivity. Qed.

Lemma Tok_Diag (L : SourceLocation) (ID : DiagID) (M : string) (P : Parser) :
  Tok (Diag L ID M P) = Tok P.
Proof. reflexivity. Qed.

Lemma AfterSwitch_semi (SemiError : string) (P : Parser) :
  Kind (Tok P) = semi ->
  AfterSwitch X (ExitBreak SemiError P) = ConsumeToken P.
Proof.
  intros H. simpl. destruct (TokenKind_eq_dec (Kind (Tok P)) semi); congruence.
Qed.

Lemma AfterSwitch_not_semi (SemiError : string) (P : Parser) :
  Kind (Tok P) <> semi ->
  AfterSwitch X (ExitBreak SemiError P) =
  SkipUntil X semi (Diag (Loc (Tok P)) err_expected_semi_after SemiError P).
Proof.
  intros H. simpl. destruct (TokenKind_eq_dec (Kind (Tok P)) semi); congruence.
Qed.

Lemma SkipUntil_Diag (T : TokenKind) (L : SourceLocation) (ID : DiagID)
    (M : string) (P : Parser) :
  SkipUntil X T (Diag L ID M P) =
  mkParser (Lang P) (skipn (skipUntil X T (Toks P)) (Toks P))
           (Diags P ++ [mkDiag L ID M]) (Calls P ++ [CallSkipUntil T]).
Proof.
  unfold SkipUntil, delegate, Diag. cbn [Lang Toks Diags Calls fst snd].
  rewrite app_nil_r. reflexivity.
Qed.

Lemma returning_Returned (P : Parser) (k : Parser -> SwitchExit) :
  returning X (Returned P) k = Returned (AfterSwitch X (k P)).
Proof. reflexivity. Qed.

(** One unfolding of each recursive routine. *)

Lemma ParseStatementOrDeclaration_S (fuel : nat) (b : bool) (P : Parser) :
  ParseStatementOrDeclaration X (S fuel) b P =
  match Kind (Tok P) with
  | l_brace => returning X (ParseCompoundStatement X fuel P) ExitReturn
  | semi => returning X (Returned (ConsumeToken P)) ExitReturn
  | kw_if => returning X (ParseIfStatement X fuel P) ExitReturn
  | kw_switch => returning X (ParseSwitchStatement X fuel P) ExitReturn
  | kw_while => returning X (ParseWhileStatement X fuel P) ExitReturn
  | kw_do =>
      returning X (ParseDoStatement X fuel P) (ExitBreak "do/while loop")
  | kw_for => returning X (ParseForStatement X fuel P) ExitReturn
  | kw_goto =>
      returning X (ParseGotoStatement X P) (ExitBreak "goto statement")
  | kw_continue =>
      returning X (Returned (ConsumeToken P)) (ExitBreak "continue statement")
  | kw_break =>
      returning X (Returned (ConsumeToken P)) (ExitBreak "break statement")
  | kw_return =>
      returning X (ParseReturnStatement X P) (ExitBreak "return statement")
  | _ =>
      returning X
        (Returned (SkipUntil X semi
           (Diag (Loc (Tok P)) err_expected_statement_declaration
                 EmptyString P)))
        ExitReturn
  end.
Proof. reflexivity. Qed.

Lemma ParseCompoundStatement_S (fuel : nat) (P : Parser) :
  ParseCompoundStatement X (S fuel) P =
  if TokenKind_eq_dec (Kind (Tok P)) l_brace then
    P1 <- ParseCompoundStatement_loop X fuel (ConsumeBrace P) ;;
    if TokenKind_eq_dec (Kind (Tok P1)) r_brace then
      Returned (ConsumeBrace P1)
    else
      Returned (Diag (Loc (Tok P1)) err_expected_rbrace EmptyString P1)
  else AssertFailed.
Proof. reflexivity. Qed.

Lemma ParseCompoundStatement_loop_S (fuel : nat) (P : Parser) :
  ParseCompoundStatement_loop X (S fuel) P =
  if negb (isKind (Kind (Tok P)) r_brace) && negb (isKind (Kind (Tok P)) eof)
  then P1 <- ParseStatementOrDeclaration X fuel false P ;;
       ParseCompoundStatement_loop X fuel P1
  else Returned P.
Proof. reflexivity. Qed.

Lemma ParseIfStatement_S (fuel : nat) (P : Parser) :
  ParseIfStatement X (S fuel) P =
  if TokenKind_eq_dec (Kind (Tok P)) kw_if then
    if TokenKind_eq_dec (Kind (Tok (ConsumeToken P))) l_paren then
      P1 <- ParseStatementOrDeclaration X fuel true
              (ParseParenExpression X (ConsumeToken P)) ;;
      if TokenKind_eq_dec (Kind (Tok P1)) kw_else then
        ParseStatementOrDeclaration X fuel true (ConsumeToken P1)
      else Returned P1
    else
      Returned (SkipUntil X semi
        (Diag (Loc (Tok (ConsumeToken P))) err_expected_lparen_after "if"
              (ConsumeToken P)))
  else AssertFailed.
Proof. reflexivity. Qed.

Lemma ParseSwitchStatement_S (fuel : nat) (P : Parser) :
  ParseSwitchStatement X (S fuel) P =
  if TokenKind_eq_dec (Kind (Tok P)) kw_switch then
    if TokenKind_eq_dec (Kind (Tok (ConsumeToken P))) l_paren then
      ParseStatementOrDeclaration X fuel true
        (ParseParenExpression X (ConsumeToken P))
    else
      Returned (SkipUntil X semi
        (Diag (Loc (Tok (ConsumeToken P))) err_expected_lparen_after "switch"
              (ConsumeToken P)))
  else AssertFailed.
Proof. reflexivity. Qed.

Lemma ParseWhileStatement_S (fuel : nat) (P : Parser) :
  ParseWhileStatement X (S fuel) P =
  if TokenKind_eq_dec (Kind (Tok P)) kw_while then
    if TokenKind_eq_dec (Kind (Tok (ConsumeToken P))) l_paren then
      ParseStatementOrDeclaration X fuel true
        (ParseParenExpression X (ConsumeToken P))
    else
      Returned (SkipUntil X semi
        (Diag (Loc (Tok (ConsumeToken P))) err_expected_lparen_after "while"
              (ConsumeToken P)))
  else AssertFailed.
Proof. reflexivity. Qed.

Lemma ParseDoStatement_S (fuel : nat) (P : Parser) :
  ParseDoStatement X (S fuel) P =
  if TokenKind_eq_dec (Kind (Tok P)) kw_do then
    P1 <- ParseStatementOrDeclaration X fuel true (ConsumeToken P) ;;
    if TokenKind_eq_dec (Kind (Tok P1)) kw_while then
      if TokenKind_eq_dec (Kind (Tok (ConsumeToken P1))) l_paren then
        Returned (ParseParenExpression X (ConsumeToken P1))
      else
        Returned (SkipUntil X semi
          (Diag (Loc (Tok (ConsumeToken P1))) err_expected_lparen_after
                "do/while" (ConsumeToken P1)))
    else
      Returned (SkipUntil X semi
        (Diag (Loc (Tok P)) err_matching EmptyString
           (Diag (Loc (Tok P1)) err_expected_while EmptyString P1)))
  else AssertFailed.
Proof. reflexivity. Qed.

Lemma ParseForStatement_S (fuel : nat) (P : Parser) :
  ParseForStatement X (S fuel) P =
  if TokenKind_eq_dec (Kind (Tok P)) kw_for then
    let ForLoc := Loc (Tok P) in
    let P := ConsumeToken P in
    if TokenKind_eq_dec (Kind (Tok P)) l_paren then
      let LParenLoc := Loc (Tok P) in
      let P := ConsumeParen P in
      let P := ParseForStatement_first X ForLoc P in
      let P := ParseForStatement_second X ForLoc P in
      let P := ParseForStatement_third X P in
      if TokenKind_eq_dec (Kind (Tok P)) r_paren then
        let P := ConsumeParen P in
        ParseStatementOrDeclaration X fuel true P
      else
        let P := Diag (Loc (Tok P)) err_expected_rparen EmptyString P in
        let P := Diag LParenLoc err_matching EmptyString P in
        Returned (SkipUntil X r_paren P)
    else
      let P := Diag (Loc (Tok P)) err_expected_lparen_after "for" P in
      Returned (SkipUntil X semi P)
  else AssertFailed.
Proof. reflexivity. Qed.

(** The clauses of the for statement, case by case. *)

Lemma ParseForStatement_first_semi (ForLoc : SourceLocation) (P : Parser) :
  Kind (Tok P) = semi ->
  ParseForStatement_first X ForLoc P = ConsumeToken P.
Proof.
  intros H. unfold ParseForStatement_first.
  destruct (TokenKind_eq_dec (Kind (Tok P)) semi); [reflexivity|contradiction].
Qed.

Lemma ParseForStatement_first_expression (ForLoc : SourceLocation)
    (P : Parser) :
  Kind (Tok P) <> semi -> isDeclarationSpecifier X P = false ->
  ParseForStatement_first X ForLoc P =
  if TokenKind_eq_dec (Kind (Tok (ParseExpression X P))) semi then
    ConsumeToken (ParseExpression X P)
  else
    SkipUntil X semi
      (Diag ForLoc err_matching EmptyString
         (Diag (Loc (Tok (ParseExpression X P))) err_expected_semi_for
               EmptyString (ParseExpression X P))).
Proof.
  intros H Hd. unfold ParseForStatement_first.
  destruct (TokenKind_eq_dec (Kind (Tok P)) semi); [contradiction|].
  rewrite Hd. reflexivity.
Qed.

Lemma ParseForStatement_second_semi (ForLoc : SourceLocation) (P : Parser) :
  Kind (Tok P) = semi ->
  ParseForStatement_second X ForLoc P = ConsumeToken P.
Proof.
  intros H. unfold ParseForStatement_second.
  destruct (TokenKind_eq_dec (Kind (Tok P)) semi); [|contradiction].
  destruct (TokenKind_eq_dec (Kind (Tok P)) semi); [reflexivity|contradiction].
Qed.

Lemma ParseForStatement_second_expression (ForLoc : SourceLocation)
    (P : Parser) :
  Kind (Tok P) <> semi ->
  ParseForStatement_second X ForLoc P =
  if TokenKind_eq_dec (Kind (Tok (ParseExpression X P))) semi then
    ConsumeToken (ParseExpression X P)
  else
    SkipUntil X semi
      (Diag ForLoc err_matching EmptyString
         (Diag (Loc (Tok (ParseExpression X P))) err_expected_semi_for
               EmptyString (ParseExpression X P))).
Proof.
  intros H. unfold ParseForStatement_second.
  destruct (TokenKind_eq_dec (Kind (Tok P)) semi); [contradiction|].
  reflexivity.
Qed.

Lemma ParseForStatement_third_r_paren (P : Parser) :
  Kind (Tok P) = r_paren -> ParseForStatement_third X P = P.
Proof.
  intros H. unfold ParseForStatement_third.
  destruct (TokenKind_eq_dec (Kind (Tok P)) r_paren);
    [reflexivity|contradiction].
Qed.

Lemma ParseForStatement_third_expression (P : Parser) :
  Kind (Tok P) <> r_paren ->
  ParseForStatement_third X P = ParseExpression X P.
Proof.
  intros H. unfold ParseForStatement_third.
  destruct (TokenKind_eq_dec (Kind (Tok P)) r_paren);
    [contradiction|reflexivity].
Qed.

End Basics.

(** ** Fuel: more call depth never changes a result *)

Lemma bind_Returned (o : Outcome) (k : Parser -> Outcome) (P' : Parser) :
  bind o k = Returned P' ->
  exists P1, o = Returned P1 /\ k P1 = Returned P'.
Proof.
  destruct o as [P1| |]; cbn [bind]; intros H; try discriminate H.
  exists P1. split; [reflexivity|exact H].
Qed.

Lemma returning_mono (X : Collaborators) (o o' : Outcome)
    (k : Parser -> SwitchExit) (P' : Parser) :
  (forall P1, o = Returned P1 -> o' = Returned P1) ->
  returning X o k = Returned P' -> returning X o' k = Returned P'.
Proof.
  unfold returning. intros Hoo H.
  apply bind_Returned in H. destruct H as (P1 & H1 & H2).
  rewrite (Hoo P1 H1). exact H2.
Qed.

Section Fuel.

Variable X : Collaborators.

Lemma fuel_monotone_all (n : nat) :
  (forall b, MonotoneUpTo n (fun f => ParseStatementOrDeclaration X f b)) /\
  MonotoneUpTo n (ParseCompoundStatement X) /\
  MonotoneUpTo n (ParseCompoundStatement_loop X) /\
  MonotoneUpTo n (ParseIfStatement X) /\
  MonotoneUpTo n (ParseSwitchStatement X) /\
  MonotoneUpTo n (ParseWhileStatement X) /\
  MonotoneUpTo n (ParseDoStatement X) /\
  MonotoneUpTo n (ParseForStatement X).
Proof.
  unfold MonotoneUpTo.
  induction n as [|n IH].
  - repeat split; intros; discriminate.
  - destruct IH as (IHd & IHc & IHl & IHi & IHs & IHw & IHo & IHf).
    repeat split; intros until P'; intros Hle H;
      (destruct m as [|m]; [lia|]); assert (Hnm : n <= m) by lia.
    + rewrite ParseStatementOrDeclaration_S in H |- *.
      destruct (Kind (Tok P));
        (eapply returning_mono; [|exact H]); intros P1 H1;
        solve [exact H1 | eauto].
    + rewrite ParseCompoundStatement_S in H |- *.
      destruct (TokenKind_eq_dec (Kind (Tok P)) l_brace); [|discriminate H].
      apply bind_Returned in H. destruct H as (P1 & H1 & H2).
      rewrite (IHl m _ _ Hnm H1). exact H2.
    + rewrite ParseCompoundStatement_loop_S in H |- *.
      destruct (negb (isKind (Kind (Tok P)) r_brace)
                && negb (isKind (Kind (Tok P)) eof)); [|exact H].
      apply bind_Returned in H. destruct H as (P1 & H1 & H2).
      rewrite (IHd false m _ _ Hnm H1). cbn [bind]. eauto.
    + rewrite ParseIfStatement_S in H |- *.
      destruct (TokenKind_eq_dec (Kind (Tok P)) kw_if); [|discriminate H].
      destruct (TokenKind_eq_dec (Kind (Tok (ConsumeToken P))) l_paren);
        [|exact H].
      apply bind_Returned in H. destruct H as (P1 & H1 & H2).
      rewrite (IHd true m _ _ Hnm H1). cbn [bind].
      destruct (TokenKind_eq_dec (Kind (Tok P1)) kw_else); eauto.
    + rewrite ParseSwitchStatement_S in H |- *.
      destruct (TokenKind_eq_dec (Kind (Tok P)) kw_switch); [|discriminate H].
      destruct (TokenKind_eq_dec (Kind (Tok (ConsumeToken P))) l_paren);
        eauto.
    + rewrite ParseWhileStatement_S in H |- *.
      destruct (TokenKind_eq_dec (Kind (Tok P)) kw_while); [|discriminate H].
      destruct (TokenKind_eq_dec (Kind (Tok (ConsumeToken P))) l_paren);
        eauto.
    + rewrite ParseDoStatement_S in H |- *.
      destruct (TokenKind_eq_dec (Kind (Tok P)) kw_do); [|discriminate H].
      apply bind_Returned in H. destruct H as (P1 & H1 & H2).
      rewrite (IHd true m _ _ Hnm H1). exact H2.
    + rewrite ParseForStatement_S in H |- *.
      destruct (TokenKind_eq_dec (Kind (Tok P)) kw_for); [|discriminate H].
      cbv zeta in H |- *.
      destruct (TokenKind_eq_dec (Kind (Tok (ConsumeToken P))) l_paren);
        [|exact H].
      match goal with
      | |- context [TokenKind_eq_dec (Kind (Tok ?Q)) r_paren] =>
          destruct (TokenKind_eq_dec (Kind (Tok Q)) r_paren)
      end; eauto.
Qed.

Lemma ParseStatementOrDeclaration_monotone (b : bool) :
  Monotone (fun f => ParseStatementOrDeclaration X f b).
Proof.
  intros n m P P' Hle H.
  exact (proj1 (fuel_monotone_all n) b m P P' Hle H).
Qed.

Lemma ParseCompoundStatement_loop_monotone :
  Monotone (ParseCompoundStatement_loop X).
Proof.
  intros n m P P' Hle H.
  exact (proj1 (proj2 (proj2 (fuel_monotone_all n))) m P P' Hle H).
Qed.

End Fuel.

(** ** Every routine returns *)

Lemma skip_until_advances : SkipUntilAdvances sample.
Proof.
  intros T t ts H. cbn [skipUntil sample skip_until].
  destruct (TokenKind_eq_dec (Kind t) T); [lia|].
  destruct (TokenKind_eq_dec (Kind t) eof); [contradiction|lia].
Qed.

Section Termination.

Variable X : Collaborators.

Lemma remaining_not_eof (P : Parser) :
  Kind (Tok P) <> eof -> 0 < remaining P.
Proof.
  unfold remaining, Tok. destruct (Toks P) as [|t ts]; cbn [hd List.length].
  - intros H. exfalso. apply H. reflexivity.
  - lia.
Qed.

Lemma remaining_ConsumeToken (P : Parser) :
  remaining (ConsumeToken P) = pred (remaining P).
Proof. unfold remaining. cbn [ConsumeToken Toks]. destruct (Toks P); reflexivity. Qed.

Lemma remaining_ConsumeBrace (P : Parser) :
  remaining (ConsumeBrace P) = pred (remaining P).
Proof. exact (remaining_ConsumeToken P). Qed.

Lemma remaining_ConsumeParen (P : Parser) :
  remaining (ConsumeParen P) = pred (remaining P).
Proof. exact (remaining_ConsumeToken P). Qed.

Lemma remaining_Diag (L : SourceLocation) (ID : DiagID) (M : string)
    (P : Parser) :
  remaining (Diag L ID M P) = remaining P.
Proof. reflexivity. Qed.

Lemma remaining_delegate (c : Call) (e : Effect) (P : Parser) :
  remaining (delegate c e P) <= remaining P.
Proof.
  unfold remaining. cbn [delegate Toks]. rewrite List.length_skipn. lia.
Qed.

Lemma remaining_ParseExpression (P : Parser) :
  remaining (ParseExpression X P) <= remaining P.
Proof. apply remaining_delegate. Qed.

Lemma remaining_ParseParenExpression (P : Parser) :
  remaining (ParseParenExpression X P) <= remaining P.
Proof. apply remaining_delegate. Qed.

Lemma remaining_ParseDeclaration (Ctx : DeclaratorContext) (P : Parser) :
  remaining (ParseDeclaration X Ctx P) <= remaining P.
Proof. apply remaining_delegate. Qed.

Lemma remaining_SkipUntil (T : TokenKind) (P : Parser) :
  remaining (SkipUntil X T P) <= remaining P.
Proof. apply remaining_delegate. Qed.

Lemma remaining_AfterSwitch (E : SwitchExit) :
  remaining (AfterSwitch X E) <=
  remaining (match E with ExitReturn P => P | ExitBreak _ P => P end).
Proof.
  destruct E as [P|SemiError P]; cbn [AfterSwitch]; [lia|].
  destruct (TokenKind_eq_dec (Kind (Tok P)) semi).
  - rewrite remaining_ConsumeToken. lia.
  - etransitivity; [apply remaining_SkipUntil|]. rewrite remaining_Diag. lia.
Qed.

Lemma remaining_ParseForStatement_first (ForLoc : SourceLocation)
    (P : Parser) :
  remaining (ParseForStatement_first X ForLoc P) <= remaining P.
Proof.
  unfold ParseForStatement_first.
  destruct (TokenKind_eq_dec (Kind (Tok P)) semi).
  - rewrite remaining_ConsumeToken. lia.
  - destruct (isDeclarationSpecifier X P).
    + etransitivity; [apply remaining_ParseDeclaration|].
      destruct (negb (C99 (Lang P))); [rewrite remaining_Diag|]; lia.
    + pose proof (remaining_ParseExpression P) as He.
      destruct (TokenKind_eq_dec (Kind (Tok (ParseExpression X P))) semi).
      * rewrite remaining_ConsumeToken. lia.
      * etransitivity; [apply remaining_SkipUntil|].
        rewrite !remaining_Diag. exact He.
Qed.

Lemma remaining_ParseForStatement_second (ForLoc : SourceLocation)
    (P : Parser) :
  remaining (ParseForStatement_second X ForLoc P) <= remaining P.
Proof.
  unfold ParseForStatement_second.
  set (Pe := if TokenKind_eq_dec (Kind (Tok P)) semi then P
             else ParseExpression X P).
  assert (He : remaining Pe <= remaining P).
  { unfold Pe. destruct (TokenKind_eq_dec (Kind (Tok P)) semi);
      [lia|apply remaining_ParseExpression]. }
  cbv zeta. destruct (TokenKind_eq_dec (Kind (Tok Pe)) semi).
  - rewrite remaining_ConsumeToken. lia.
  - etransitivity; [apply remaining_SkipUntil|].
    rewrite !remaining_Diag. exact He.
Qed.

Lemma remaining_ParseForStatement_third (P : Parser) :
  remaining (ParseForStatement_third X P) <= remaining P.
Proof.
  unfold ParseForStatement_third.
  destruct (TokenKind_eq_dec (Kind (Tok P)) r_paren);
    [lia|apply remaining_ParseExpression].
Qed.

(** The two routines without recursion return, having consumed their
    keyword. *)

Lemma ParseGotoStatement_returns (P : Parser) :
  Kind (Tok P) = kw_goto ->
  exists P', ParseGotoStatement X P = Returned P' /\
             remaining P' < remaining P.
Proof.
  intros Hk. unfold ParseGotoStatement.
  assert (Hpos : 0 < remaining P)
    by (apply remaining_not_eof; rewrite Hk; discriminate).
  pose proof (remaining_ConsumeToken P) as H1.
  destruct (TokenKind_eq_dec (Kind (Tok P)) kw_goto); [|contradiction].
  cbv zeta.
  destruct (TokenKind_eq_dec (Kind (Tok (ConsumeToken P))) identifier).
  - eexists. split; [reflexivity|]. rewrite remaining_ConsumeToken. lia.
  - destruct (isKind (Kind (Tok (ConsumeToken P))) star
              && negb (NoExtensions (Lang (ConsumeToken P)))).
    + eexists. split; [reflexivity|].
      eapply Nat.le_lt_trans; [apply remaining_ParseExpression|].
      rewrite remaining_ConsumeToken, remaining_Diag. lia.
    + eexists. split; [reflexivity|]. lia.
Qed.

Lemma ParseReturnStatement_returns (P : Parser) :
  Kind (Tok P) = kw_return ->
  exists P', ParseReturnStatement X P = Returned P' /\
             remaining P' < remaining P.
Proof.
  intros Hk. unfold ParseReturnStatement.
  assert (Hpos : 0 < remaining P)
    by (apply remaining_not_eof; rewrite Hk; discriminate).
  pose proof (remaining_ConsumeToken P) as H1.
  destruct (TokenKind_eq_dec (Kind (Tok P)) kw_return); [|contradiction].
  cbv zeta.
  destruct (TokenKind_eq_dec (Kind (Tok (ConsumeToken P))) semi).
  - eexists. split; [reflexivity|]. lia.
  - eexists. split; [reflexivity|].
    eapply Nat.le_lt_trans; [apply remaining_ParseExpression|]. lia.
Qed.

(** From here on the skip-to-token recovery advances the stream. *)
Hypothesis Hadv : SkipUntilAdvances X.

Lemma remaining_SkipUntil_lt (T : TokenKind) (P : Parser) :
  Kind (Tok P) <> eof -> remaining (SkipUntil X T P) < remaining P.
Proof.
  unfold remaining, Tok. cbn [SkipUntil delegate Toks fst].
  destruct (Toks P) as [|t ts]; cbn [hd]; intros H.
  - exfalso. apply H. reflexivity.
  - rewrite List.length_skipn. pose proof (Hadv T t ts H) as Hpos.
    cbn [List.length]. lia.
Qed.

Section Below.

Variable N : nat.

Hypothesis HN : ReturnsBelow X N.

Lemma body_returns (P : Parser) :
  remaining P < N ->
  exists (fuel : nat) (P' : Parser),
    ParseStatementOrDeclaration X fuel true P = Returned P' /\
    remaining P' <= remaining P.
Proof.
  intros H. destruct (HN true P H) as (fuel & P' & Hr & Hle & _).
  exists fuel, P'. split; assumption.
Qed.

Lemma ParseCompoundStatement_loop_returns (m : nat) :
  forall P : Parser,
    remaining P <= m -> remaining P < N ->
    exists (fuel : nat) (P' : Parser),
      ParseCompoundStatement_loop X fuel P = Returned P' /\
      remaining P' <= remaining P /\
      (Kind (Tok P') = r_brace \/ Kind (Tok P') = eof).
Proof.
  induction m as [|m IH]; intros P Hm HPN.
  - exists 1, P. rewrite ParseCompoundStatement_loop_S.
    assert (He : Kind (Tok P) = eof).
    { unfold remaining in Hm. unfold Tok.
      destruct (Toks P); [reflexivity|cbn [List.length] in Hm; lia]. }
    rewrite He. cbn. repeat split; [lia|right; reflexivity].
  - destruct (TokenKind_eq_dec (Kind (Tok P)) r_brace) as [Hb|Hb].
    { exists 1, P. rewrite ParseCompoundStatement_loop_S, Hb. cbn.
      repeat split; [lia|left; reflexivity]. }
    destruct (TokenKind_eq_dec (Kind (Tok P)) eof) as [He|He].
    { exists 1, P. rewrite ParseCompoundStatement_loop_S, He. cbn.
      repeat split; [lia|right; reflexivity]. }
    destruct (HN false P HPN) as (f1 & P1 & Hr1 & _ & Hlt).
    specialize (Hlt He).
    destruct (IH P1) as (f2 & P2 & Hr2 & Hle2 & Hstop); [lia|lia|].
    exists (S (Nat.max f1 f2)), P2.
    rewrite ParseCompoundStatement_loop_S. unfold isKind.
    destruct (TokenKind_eq_dec (Kind (Tok P)) r_brace); [contradiction|].
    destruct (TokenKind_eq_dec (Kind (Tok P)) eof); [contradiction|].
    cbn [negb andb].
    rewrite (ParseStatementOrDeclaration_monotone X false f1
               (Nat.max f1 f2) P P1 (Nat.le_max_l f1 f2) Hr1).
    cbn [bind].
    rewrite (ParseCompoundStatement_loop_monotone X f2
               (Nat.max f1 f2) P1 P2 (Nat.le_max_r f1 f2) Hr2).
    repeat split; [lia|exact Hstop].
Qed.

Lemma ParseCompoundStatement_returns (P : Parser) :
  remaining P <= N -> Kind (Tok P) = l_brace ->
  exists (fuel : nat) (P' : Parser),
    ParseCompoundStatement X fuel P = Returned P' /\
    remaining P' < remaining P.
Proof.
  intros HP Hk.
  assert (Hpos : 0 < remaining P)
    by (apply remaining_not_eof; rewrite Hk; discriminate).
  pose proof (remaining_ConsumeBrace P) as HQ.
  destruct (ParseCompoundStatement_loop_returns
              (remaining (ConsumeBrace P)) (ConsumeBrace P))
    as (f & P1 & Hr & Hle & _); [lia|lia|].
  exists (S f). rewrite ParseCompoundStatement_S.
  destruct (TokenKind_eq_dec (Kind (Tok P)) l_brace); [|contradiction].
  rewrite Hr. cbn [bind].
  destruct (TokenKind_eq_dec (Kind (Tok P1)) r_brace).
  - eexists. split; [reflexivity|]. rewrite remaining_ConsumeBrace. lia.
  - eexists. split; [reflexivity|]. rewrite remaining_Diag. lia.
Qed.

Lemma ParseIfStatement_returns (P : Parser) :
  remaining P <= N -> Kind (Tok P) = kw_if ->
  exists (fuel : nat) (P' : Parser),
    ParseIfStatement X fuel P = Returned P' /\ remaining P' < remaining P.
Proof.
  intros HP Hk.
  assert (Hpos : 0 < remaining P)
    by (apply remaining_not_eof; rewrite Hk; discriminate).
  pose proof (remaining_ConsumeToken P) as HQ.
  destruct (TokenKind_eq_dec (Kind (Tok (ConsumeToken P))) l_paren)
    as [Hp|Hp].
  - pose proof (remaining_ParseParenExpression (ConsumeToken P)) as HQ2.
    destruct (body_returns (ParseParenExpression X (ConsumeToken P)))
      as (f1 & P1 & Hr1 & Hle1); [lia|].
    destruct (TokenKind_eq_dec (Kind (Tok P1)) kw_else) as [He|He].
    + pose proof (remaining_ConsumeToken P1) as HQ3.
      destruct (body_returns (ConsumeToken P1))
        as (f2 & P2 & Hr2 & Hle2); [lia|].
      exists (S (Nat.max f1 f2)), P2. rewrite ParseIfStatement_S.
      destruct (TokenKind_eq_dec (Kind (Tok P)) kw_if); [|contradiction].
      destruct (TokenKind_eq_dec (Kind (Tok (ConsumeToken P))) l_paren);
        [|contradiction].
      rewrite (ParseStatementOrDeclaration_monotone X true f1
                 (Nat.max f1 f2) _ P1 (Nat.le_max_l f1 f2) Hr1).
      cbn [bind].
      destruct (TokenKind_eq_dec (Kind (Tok P1)) kw_else); [|contradiction].
      rewrite (ParseStatementOrDeclaration_monotone X true f2
                 (Nat.max f1 f2) _ P2 (Nat.le_max_r f1 f2) Hr2).
      split; [reflexivity|lia].
    + exists (S f1), P1. rewrite ParseIfStatement_S.
      destruct (TokenKind_eq_dec (Kind (Tok P)) kw_if); [|contradiction].
      destruct (TokenKind_eq_dec (Kind (Tok (ConsumeToken P))) l_paren);
        [|contradiction].
      rewrite Hr1. cbn [bind].
      destruct (TokenKind_eq_dec (Kind (Tok P1)) kw_else); [contradiction|].
      split; [reflexivity|lia].
  - exists 1. rewrite ParseIfStatement_S.
    destruct (TokenKind_eq_dec (Kind (Tok P)) kw_if); [|contradiction].
    destruct (TokenKind_eq_dec (Kind (Tok (ConsumeToken P))) l_paren);
      [contradiction|].
    eexists. split; [reflexivity|].
    eapply Nat.le_lt_trans; [apply remaining_SkipUntil|].
    rewrite remaining_Diag. lia.
Qed.

Lemma ParseSwitchStatement_returns (P : Parser) :
  remaining P <= N -> Kind (Tok P) = kw_switch ->
  exists (fuel : nat) (P' : Parser),
    ParseSwitchStatement X fuel P = Returned P' /\
    remaining P' < remaining P.
Proof.
  intros HP Hk.
  assert (Hpos : 0 < remaining P)
    by (apply remaining_not_eof; rewrite Hk; discriminate).
  pose proof (remaining_ConsumeToken P) as HQ.
  destruct (TokenKind_eq_dec (Kind (Tok (ConsumeToken P))) l_paren)
    as [Hp|Hp].
  - pose proof (remaining_ParseParenExpression (ConsumeToken P)) as HQ2.
    destruct (body_returns (ParseParenExpression X (ConsumeToken P)))
      as (f1 & P1 & Hr1 & Hle1); [lia|].
    exists (S f1), P1. rewrite ParseSwitchStatement_S.
    destruct (TokenKind_eq_dec (Kind (Tok P)) kw_switch); [|contradiction].
    destruct (TokenKind_eq_dec (Kind (Tok (ConsumeToken P))) l_paren);
      [|contradiction].
    split; [exact Hr1|lia].
  - exists 1. rewrite ParseSwitchStatement_S.
    destruct (TokenKind_eq_dec (Kind (Tok P)) kw_switch); [|contradiction].
    destruct (TokenKind_eq_dec (Kind (Tok (ConsumeToken P))) l_paren);
      [contradiction|].
    eexists. split; [reflexivity|].
    eapply Nat.le_lt_trans; [apply remaining_SkipUntil|].
    rewrite remaining_Diag. lia.
Qed.

Lemma ParseWhileStatement_returns (P : Parser) :
  remaining P <= N -> Kind (Tok P) = kw_while ->
  exists (fuel : nat) (P' : Parser),
    ParseWhileStatement X fuel P = Returned P' /\
    remaining P' < remaining P.
Proof.
  intros HP Hk.
  assert (Hpos : 0 < remaining P)
    by (apply remaining_not_eof; rewrite Hk; discriminate).
  pose proof (remaining_ConsumeToken P) as HQ.
  destruct (TokenKind_eq_dec (Kind (Tok (ConsumeToken P))) l_paren)
    as [Hp|Hp].
  - pose proof (remaining_ParseParenExpression (ConsumeToken P)) as HQ2.
    destruct (body_returns (ParseParenExpression X (ConsumeToken P)))
      as (f1 & P1 & Hr1 & Hle1); [lia|].
    exists (S f1), P1. rewrite ParseWhileStatement_S.
    destruct (TokenKind_eq_dec (Kind (Tok P)) kw_while); [|contradiction].
    destruct (TokenKind_eq_dec (Kind (Tok (ConsumeToken P))) l_paren);
      [|contradiction].
    split; [exact Hr1|lia].
  - exists 1. rewrite ParseWhileStatement_S.
    destruct (TokenKind_eq_dec (Kind (Tok P)) kw_while); [|contradiction].
    destruct (TokenKind_eq_dec (Kind (Tok (ConsumeToken P))) l_paren);
      [contradiction|].
    eexists. split; [reflexivity|].
    eapply Nat.le_lt_trans; [apply remaining_SkipUntil|].
    rewrite remaining_Diag. lia.
Qed.

Lemma ParseDoStatement_returns (P : Parser) :
  remaining P <= N -> Kind (Tok P) = kw_do ->
  exists (fuel : nat) (P' : Parser),
    ParseDoStatement X fuel P = Returned P' /\ remaining P' < remaining P.
Proof.
  intros HP Hk.
  assert (Hpos : 0 < remaining P)
    by (apply remaining_not_eof; rewrite Hk; discriminate).
  pose proof (remaining_ConsumeToken P) as HQ.
  destruct (body_returns (ConsumeToken P)) as (f1 & P1 & Hr1 & Hle1); [lia|].
  exists (S f1). rewrite ParseDoStatement_S.
  destruct (TokenKind_eq_dec (Kind (Tok P)) kw_do); [|contradiction].
  rewrite Hr1. cbn [bind].
  pose proof (remaining_ConsumeToken P1) as HQ1.
  destruct (TokenKind_eq_dec (Kind (Tok P1)) kw_while).
  - destruct (TokenKind_eq_dec (Kind (Tok (ConsumeToken P1))) l_paren).
    + eexists. split; [reflexivity|].
      eapply Nat.le_lt_trans; [apply remaining_ParseParenExpression|]. lia.
    + eexists. split; [reflexivity|].
      eapply Nat.le_lt_trans; [apply remaining_SkipUntil|].
      rewrite remaining_Diag. lia.
  - eexists. split; [reflexivity|].
    eapply Nat.le_lt_trans; [apply remaining_SkipUntil|].
    rewrite !remaining_Diag. lia.
Qed.

Lemma ParseForStatement_returns (P : Parser) :
  remaining P <= N -> Kind (Tok P) = kw_for ->
  exists (fuel : nat) (P' : Parser),
    ParseForStatement X fuel P = Returned P' /\ remaining P' < remaining P.
Proof.
  intros HP Hk.
  assert (Hpos : 0 < remaining P)
    by (apply remaining_not_eof; rewrite Hk; discriminate).
  pose proof (remaining_ConsumeToken P) as HQ.
  destruct (TokenKind_eq_dec (Kind (Tok (ConsumeToken P))) l_paren)
    as [Hp|Hp].
  - set (P5 := ParseForStatement_third X
                 (ParseForStatement_second X (Loc (Tok P))
                    (ParseForStatement_first X (Loc (Tok P))
                       (ConsumeParen (ConsumeToken P))))).
    assert (H5 : remaining P5 <= remaining (ConsumeToken P)).
    { unfold P5.
      etransitivity; [apply remaining_ParseForStatement_third|].
      etransitivity; [apply remaining_ParseForStatement_second|].
      etransitivity; [apply remaining_ParseForStatement_first|].
      rewrite remaining_ConsumeParen. lia. }
    destruct (TokenKind_eq_dec (Kind (Tok P5)) r_paren) as [Hr|Hr].
    + pose proof (remaining_ConsumeParen P5) as HQ5.
      destruct (body_returns (ConsumeParen P5))
        as (f1 & P1 & Hr1 & Hle1); [lia|].
      exists (S f1), P1. rewrite ParseForStatement_S.
      destruct (TokenKind_eq_dec (Kind (Tok P)) kw_for); [|contradiction].
      cbv zeta.
      destruct (TokenKind_eq_dec (Kind (Tok (ConsumeToken P))) l_paren);
        [|contradiction].
      fold P5.
      destruct (TokenKind_eq_dec (Kind (Tok P5)) r_paren); [|contradiction].
      split; [exact Hr1|lia].
    + exists 1. rewrite ParseForStatement_S.
      destruct (TokenKind_eq_dec (Kind (Tok P)) kw_for); [|contradiction].
      cbv zeta.
      destruct (TokenKind_eq_dec (Kind (Tok (ConsumeToken P))) l_paren);
        [|contradiction].
      fold P5.
      destruct (TokenKind_eq_dec (Kind (Tok P5)) r_paren); [contradiction|].
      eexists. split; [reflexivity|].
      eapply Nat.le_lt_trans; [apply remaining_SkipUntil|].
      rewrite !remaining_Diag. lia.
  - exists 1. rewrite ParseForStatement_S.
    destruct (TokenKind_eq_dec (Kind (Tok P)) kw_for); [|contradiction].
    cbv zeta.
    destruct (TokenKind_eq_dec (Kind (Tok (ConsumeToken P))) l_paren);
      [contradiction|].
    eexists. split; [reflexivity|].
    eapply Nat.le_lt_trans; [apply remaining_SkipUntil|].
    rewrite remaining_Diag. lia.
Qed.

(** The dispatcher's step: what holds below [N] tokens holds at [N]. *)

Ltac after_switch_bound :=
  match goal with
  | |- context [AfterSwitch X ?E] =>
      let HA := fresh "HA" in
      pose proof (remaining_AfterSwitch E) as HA; cbn beta iota in HA
  end.

Ltac dispatch_default Hk :=
  exists 1; rewrite ParseStatementOrDeclaration_S, Hk, returning_Returned;
  cbn [AfterSwitch]; eexists; split; [reflexivity|]; split;
  [ etransitivity; [apply remaining_SkipUntil|rewrite remaining_Diag; lia]
  | intros He; eapply Nat.lt_le_trans;
    [ apply remaining_SkipUntil_lt; rewrite Tok_Diag, Hk; exact He
    | rewrite remaining_Diag; lia ] ].

Ltac dispatch_routine Hk Hreturns :=
  let f := fresh "f" in
  let P1 := fresh "P1" in
  let Hr := fresh "Hr" in
  let Hlt := fresh "Hlt" in
  destruct Hreturns as (f & P1 & Hr & Hlt);
  exists (S f); rewrite ParseStatementOrDeclaration_S, Hk, Hr,
    returning_Returned;
  eexists; split; [reflexivity|]; after_switch_bound;
  split; [lia|intros _; lia].

Ltac dispatch_simple Hk Hreturns :=
  let P1 := fresh "P1" in
  let Hr := fresh "Hr" in
  let Hlt := fresh "Hlt" in
  destruct Hreturns as (P1 & Hr & Hlt);
  exists 1; rewrite ParseStatementOrDeclaration_S, Hk, Hr,
    returning_Returned;
  eexists; split; [reflexivity|]; after_switch_bound;
  split; [lia|intros _; lia].

Lemma ConsumeToken_returns (P : Parser) :
  Kind (Tok P) <> eof ->
  exists P', Returned (ConsumeToken P) = Returned P' /\
             remaining P' < remaining P.
Proof.
  intros H. exists (ConsumeToken P). split; [reflexivity|].
  pose proof (remaining_not_eof P H). rewrite remaining_ConsumeToken. lia.
Qed.

Lemma ParseStatementOrDeclaration_returns_at (b : bool) (P : Parser) :
  remaining P <= N ->
  exists (fuel : nat) (P' : Parser),
    ParseStatementOrDeclaration X fuel b P = Returned P' /\
    remaining P' <= remaining P /\
    (Kind (Tok P) <> eof -> remaining P' < remaining P).
Proof.
  intros HP.
  destruct (Kind (Tok P)) eqn:Hk; try solve [dispatch_default Hk].
  - dispatch_routine Hk (ParseCompoundStatement_returns P HP Hk).
  - assert (Hne : Kind (Tok P) <> eof) by (rewrite Hk; discriminate).
    destruct (ConsumeToken_returns P Hne) as (P1 & Hr & Hlt).
    exists 1. rewrite ParseStatementOrDeclaration_S, Hk, returning_Returned.
    eexists. split; [reflexivity|]. after_switch_bound.
    injection Hr as Hr. subst P1. split; [lia|intros _; lia].
  - assert (Hne : Kind (Tok P) <> eof) by (rewrite Hk; discriminate).
    destruct (ConsumeToken_returns P Hne) as (P1 & Hr & Hlt).
    exists 1. rewrite ParseStatementOrDeclaration_S, Hk, returning_Returned.
    eexists. split; [reflexivity|]. after_switch_bound.
    injection Hr as Hr. subst P1. split; [lia|intros _; lia].
  - assert (Hne : Kind (Tok P) <> eof) by (rewrite Hk; discriminate).
    destruct (ConsumeToken_returns P Hne) as (P1 & Hr & Hlt).
    exists 1. rewrite ParseStatementOrDeclaration_S, Hk, returning_Returned.
    eexists. split; [reflexivity|]. after_switch_bound.
    injection Hr as Hr. subst P1. split; [lia|intros _; lia].
  - dispatch_routine Hk (ParseDoStatement_returns P HP Hk).
  - dispatch_routine Hk (ParseForStatement_returns P HP Hk).
  - dispatch_simple Hk (ParseGotoStatement_returns P Hk).
  - dispatch_routine Hk (ParseIfStatement_returns P HP Hk).
  - dispatch_simple Hk (ParseReturnStatement_returns P Hk).
  - dispatch_routine Hk (ParseSwitchStatement_returns P HP Hk).
  - dispatch_routine Hk (ParseWhileStatement_returns P HP Hk).
Qed.

End Below.

Lemma ReturnsBelow_all (N : nat) : ReturnsBelow X N.
Proof.
  induction N as [|N IH].
  - intros b P H. lia.
  - intros b P H. apply (ParseStatementOrDeclaration_returns_at N IH). lia.
Qed.

(** The dispatcher returns on every parser state. *)
Lemma ParseStatementOrDeclaration_returns (b : bool) (P : Parser) :
  exists (fuel : nat) (P' : Parser),
    ParseStatementOrDeclaration X fuel b P = Returned P'.
Proof.
  destruct (ReturnsBelow_all (S (remaining P)) b P) as (fuel & P' & H & _);
    [lia|].
  exists fuel, P'. exact H.
Qed.

End Termination.

(** * The claims of the specification *)

(** ** Statements the dispatcher has no case for *)

(** C1: at the first token of a labeled statement or of a non-empty
    expression statement the dispatcher takes its default case, whatever
    follows: it reports "expected statement or declaration" at that token
    and skips to the next semicolon.  So no such statement is parsed with
    zero diagnostics. *)
Theorem labeled_and_expression_statements_diagnosed :
  forall (X : Collaborators) (fuel : nat) (OnlyStatement : bool) (P : Parser),
    starts_labeled_or_expression_statement (Kind (Tok P)) = true ->
    ParseStatementOrDeclaration X (S fuel) OnlyStatement P =
    Returned
      (mkParser (Lang P)
         (skipn (skipUntil X semi (Toks P)) (Toks P))
         (Diags P ++
          [mkDiag (Loc (Tok P)) err_expected_statement_declaration
                  EmptyString])
         (Calls P ++ [CallSkipUntil semi])).
Proof.
  intros X fuel b P H. rewrite ParseStatementOrDeclaration_S.
  destruct (Kind (Tok P)); try discriminate H;
    rewrite returning_Returned; cbn [AfterSwitch]; apply f_equal;
    apply SkipUntil_Diag.
Qed.

Lemma labeled_and_expression_statements_diagnosed_witness :
  ParseStatementOrDeclaration sample 1 true
    (start [identifier; equal; numeric_constant; semi; kw_break; semi]) =
  Returned
    (mkParser (mkLang true false) (located 5 [kw_break; semi])
       [mkDiag 1 err_expected_statement_declaration EmptyString]
       [CallSkipUntil semi])
  /\
  ParseStatementOrDeclaration sample 1 true
    (start [identifier; colon; semi; kw_break; semi]) =
  Returned
    (mkParser (mkLang true false) (located 4 [kw_break; semi])
       [mkDiag 1 err_expected_statement_declaration EmptyString]
       [CallSkipUntil semi]).
Proof.
  split.
  - apply (labeled_and_expression_statements_diagnosed sample 0 true
             (start [identifier; equal; numeric_constant; semi; kw_break;
                     semi])).
    reflexivity.
  - apply (labeled_and_expression_statements_diagnosed sample 0 true
             (start [identifier; colon; semi; kw_break; semi])).
    reflexivity.
Defined.

(** ** The shared semicolon enforcement *)

Lemma AfterSwitch_enforces (X : Collaborators) (SemiError : string)
    (P1 : Parser) :
  SemicolonEnforced X SemiError P1 (AfterSwitch X (ExitBreak SemiError P1)).
Proof.
  destruct (TokenKind_eq_dec (Kind (Tok P1)) semi) as [e|n].
  - left. split; [exact e|]. rewrite AfterSwitch_semi by exact e. reflexivity.
  - right. split; [exact n|]. rewrite AfterSwitch_not_semi by exact n.
    apply SkipUntil_Diag.
Qed.

(** C2: when the dispatcher is at [do], [goto], [continue], [break] or
    [return] and the routine of that statement has returned, the dispatcher
    returns after the shared step: a semicolon is consumed, and otherwise
    exactly one missing-semicolon diagnostic with the label of the statement
    is reported and the skip-to-semicolon recovery is invoked. *)
Theorem semicolon_enforced_after_routine :
  forall (X : Collaborators) (fuel : nat) (OnlyStatement : bool)
         (P P1 : Parser) (SemiError : string),
    FallsThrough X fuel P SemiError P1 ->
    exists P',
      ParseStatementOrDeclaration X (S fuel) OnlyStatement P = Returned P' /\
      SemicolonEnforced X SemiError P1 P'.
Proof.
  intros X fuel b P P1 SemiError H.
  exists (AfterSwitch X (ExitBreak SemiError P1)).
  split; [|apply AfterSwitch_enforces].
  rewrite ParseStatementOrDeclaration_S.
  destruct H as [P1 Hk Hr|P1 Hk Hr|Hk|Hk|P1 Hk Hr]; rewrite Hk;
    try rewrite Hr; apply returning_Returned.
Qed.

Lemma semicolon_enforced_after_routine_witness :
  (exists P',
     ParseStatementOrDeclaration sample 1 true
       (start [kw_break; semi; kw_continue]) = Returned P' /\
     SemicolonEnforced sample "break statement"
       (ConsumeToken (start [kw_break; semi; kw_continue])) P')
  /\
  (exists P',
     ParseStatementOrDeclaration sample 3 true
       (start [kw_do; semi; kw_while; l_paren; identifier; r_paren;
               kw_continue; semi; kw_break]) = Returned P' /\
     SemicolonEnforced sample "do/while loop"
       (mkParser (mkLang true false)
          (located 7 [kw_continue; semi; kw_break]) []
          [CallParseParenExpression]) P').
Proof.
  split.
  - apply (@semicolon_enforced_after_routine sample 0 true
             (start [kw_break; semi; kw_continue])).
    apply FallsThrough_break. reflexivity.
  - apply (@semicolon_enforced_after_routine sample 2 true
             (start [kw_do; semi; kw_while; l_paren; identifier; r_paren;
                     kw_continue; semi; kw_break])).
    apply FallsThrough_do; reflexivity.
Defined.

(** ** The compound statement *)

Lemma ParseCompoundStatement_loop_dispatches (X : Collaborators)
    (fuel : nat) :
  forall P Pl : Parser,
    ParseCompoundStatement_loop X fuel P = Returned Pl ->
    DispatchedUntilClose X P Pl.
Proof.
  induction fuel as [|fuel IH]; intros P Pl H; [discriminate H|].
  rewrite ParseCompoundStatement_loop_S in H. unfold isKind in H.
  destruct (TokenKind_eq_dec (Kind (Tok P)) r_brace) as [Hb|Hb].
  { cbn [negb andb] in H. injection H as H. subst Pl.
    apply Dispatched_stop. left. exact Hb. }
  destruct (TokenKind_eq_dec (Kind (Tok P)) eof) as [He|He].
  { cbn [negb andb] in H. injection H as H. subst Pl.
    apply Dispatched_stop. right. exact He. }
  cbn [negb andb] in H. apply bind_Returned in H.
  destruct H as (P1 & H1 & H2).
  exact (Dispatched_step X fuel P P1 Pl Hb He H1 (IH P1 Pl H2)).
Qed.

Lemma DispatchedUntilClose_stops (X : Collaborators) (P Pl : Parser) :
  DispatchedUntilClose X P Pl ->
  Kind (Tok Pl) = r_brace \/ Kind (Tok Pl) = eof.
Proof. induction 1; assumption. Qed.

Lemma ParseCompoundStatement_parsed (X : Collaborators) (fuel : nat)
    (P P' : Parser) :
  ParseCompoundStatement X fuel P = Returned P' ->
  CompoundStatementParsed X P P'.
Proof.
  destruct fuel as [|fuel]; intros H; [discriminate H|].
  rewrite ParseCompoundStatement_S in H.
  destruct (TokenKind_eq_dec (Kind (Tok P)) l_brace); [|discriminate H].
  apply bind_Returned in H. destruct H as (Pl & Hl & H).
  pose proof (ParseCompoundStatement_loop_dispatches X fuel _ _ Hl) as Hd.
  exists Pl. split; [exact Hd|].
  destruct (TokenKind_eq_dec (Kind (Tok Pl)) r_brace) as [Hb|Hb];
    injection H as H; subst P'.
  - left. split; [exact Hb|reflexivity].
  - right. destruct (DispatchedUntilClose_stops X _ _ Hd) as [Hc|He];
      [contradiction|].
    split; [exact He|reflexivity].
Qed.

(** C3: at an opening brace, whenever the compound-statement parser
    returns it has consumed the brace, invoked the dispatcher until the
    current token was a closing brace or the end of the input, and then
    consumed the closing brace, or, at the end of the input, reported one
    "expected closing brace" and consumed nothing more, so the stream stays
    at the end of the input.  And it does return when the skip-to-token
    recovery advances the stream. *)
Theorem ParseCompoundStatement_contract :
  forall (X : Collaborators) (P : Parser),
    Kind (Tok P) = l_brace ->
    (forall (fuel : nat) (P' : Parser),
       ParseCompoundStatement X fuel P = Returned P' ->
       CompoundStatementParsed X P P')
    /\
    (SkipUntilAdvances X ->
     exists (fuel : nat) (P' : Parser),
       ParseCompoundStatement X fuel P = Returned P' /\
       CompoundStatementParsed X P P').
Proof.
  intros X P Hk. split.
  - intros fuel P' H.
    exact (ParseCompoundStatement_parsed X fuel P P' H).
  - intros Hadv.
    destruct (ParseCompoundStatement_returns X (remaining P)
                (ReturnsBelow_all X Hadv _) P (le_n _) Hk)
      as (fuel & P' & H & _).
    exists fuel, P'. split; [exact H|].
    exact (ParseCompoundStatement_parsed X fuel P P' H).
Qed.

Lemma ParseCompoundStatement_contract_witness :
  CompoundStatementParsed sample
    (start [l_brace; semi; kw_break; semi; r_brace; kw_continue])
    (mkParser (mkLang true false) (located 6 [kw_continue]) [] [])
  /\
  CompoundStatementParsed sample
    (start [l_brace; semi])
    (mkParser (mkLang true false) []
       [mkDiag 0 err_expected_rbrace EmptyString] [])
  /\
  (exists (fuel : nat) (P' : Parser),
     ParseCompoundStatement sample fuel (start [l_brace; semi]) = Returned P'
     /\ CompoundStatementParsed sample (start [l_brace; semi]) P').
Proof.
  split; [|split].
  - apply (proj1 (ParseCompoundStatement_contract sample
                    (start [l_brace; semi; kw_break; semi; r_brace;
                            kw_continue]) eq_refl) 5).
    reflexivity.
  - apply (proj1 (ParseCompoundStatement_contract sample
                    (start [l_brace; semi]) eq_refl) 5).
    reflexivity.
  - apply (proj2 (ParseCompoundStatement_contract sample
                    (start [l_brace; semi]) eq_refl)).
    exact skip_until_advances.
Defined.

(** ** The do statement *)

Lemma ParseDoStatement_recovery (X : Collaborators) (fuel : nat)
    (P Pb Pr : Parser) :
  Kind (Tok P) = kw_do ->
  ParseStatement X fuel (ConsumeToken P) = Returned Pb ->
  DoRecovery X P Pb Pr ->
  ParseDoStatement X (S fuel) P = Returned Pr.
Proof.
  intros Hdo Hbody Hrec. rewrite ParseDoStatement_S.
  destruct (TokenKind_eq_dec (Kind (Tok P)) kw_do) as [_|n]; [|contradiction].
  unfold ParseStatement in Hbody. rewrite Hbody. cbn [bind].
  destruct Hrec as [Hw|Hw Hp].
  - destruct (TokenKind_eq_dec (Kind (Tok Pb)) kw_while) as [e|_];
      [contradiction|].
    rewrite SkipUntil_Diag. unfold Diag. cbn [Lang Toks Diags Calls].
    rewrite <- app_assoc. reflexivity.
  - destruct (TokenKind_eq_dec (Kind (Tok Pb)) kw_while) as [_|n];
      [|contradiction].
    destruct (TokenKind_eq_dec (Kind (Tok (ConsumeToken Pb))) l_paren)
      as [e|_]; [contradiction|].
    rewrite SkipUntil_Diag. reflexivity.
Qed.

(** C4: at [do] the do-routine consumes the keyword, remembers its
    location, parses one body statement from there and ends as the
    specification words it, [DoStatementEnd]: when the current token after
    the body is not [while] it reports "expected 'while'" there and "matches
    this 'do'" at the remembered location, invokes the skip to the next
    semicolon and returns.  In every case the routine consumes no token
    after the recovery or after the condition: the stream it returns with is
    the one the recovery or the expression parser left, and a semicolon that
    is the current token there is consumed by the dispatcher, after the
    routine has returned. *)
Theorem ParseDoStatement_steps :
  forall (X : Collaborators) (fuel : nat) (P : Parser),
    Kind (Tok P) = kw_do ->
    let afterDo := mkParser (Lang P) (tl (Toks P)) (Diags P) (Calls P) in
    ParseDoStatement X (S fuel) P =
      (Pb <- ParseStatement X fuel afterDo ;;
       Returned (DoStatementEnd X (Loc (Tok P)) Pb))
    /\
    forall (b : bool) (Pb : Parser),
      ParseStatement X fuel afterDo = Returned Pb ->
      let P' := DoStatementEnd X (Loc (Tok P)) Pb in
      ParseDoStatement X (S fuel) P = Returned P' /\
      (Kind (Tok Pb) <> kw_while ->
       P' = mkParser (Lang Pb)
              (skipn (skipUntil X semi (Toks Pb)) (Toks Pb))
              (Diags Pb ++
               [mkDiag (Loc (Tok Pb)) err_expected_while EmptyString;
                mkDiag (Loc (Tok P)) err_matching EmptyString])
              (Calls Pb ++ [CallSkipUntil semi])) /\
      (Kind (Tok P') = semi ->
       ParseStatementOrDeclaration X (S (S fuel)) b P =
       Returned (mkParser (Lang P') (tl (Toks P')) (Diags P') (Calls P'))).
Proof.
  intros X fuel P Hdo afterDo.
  assert (Heq : ParseDoStatement X (S fuel) P =
                (Pb <- ParseStatement X fuel afterDo ;;
                 Returned (DoStatementEnd X (Loc (Tok P)) Pb))).
  { rewrite ParseDoStatement_S.
    destruct (TokenKind_eq_dec (Kind (Tok P)) kw_do); [|contradiction].
    change (ConsumeToken P) with afterDo. unfold ParseStatement.
    destruct (ParseStatementOrDeclaration X fuel true afterDo) as [Pb| |];
      cbn [bind]; [|reflexivity|reflexivity].
    unfold DoStatementEnd.
    destruct (TokenKind_eq_dec (Kind (Tok Pb)) kw_while).
    - change (Kind (Tok (ConsumeToken Pb)))
        with (Kind (hd eof_token (tl (Toks Pb)))).
      cbv zeta.
      destruct (TokenKind_eq_dec (Kind (hd eof_token (tl (Toks Pb)))) l_paren).
      + reflexivity.
      + rewrite SkipUntil_Diag. reflexivity.
    - rewrite SkipUntil_Diag. unfold Diag. cbn [Lang Toks Diags Calls].
      rewrite <- app_assoc. reflexivity. }
  split; [exact Heq|].
  intros b Pb Hbody P'.
  assert (Hret : ParseDoStatement X (S fuel) P = Returned P')
    by (rewrite Heq, Hbody; reflexivity).
  split; [exact Hret|]. split.
  - intros Hw. unfold P', DoStatementEnd.
    destruct (TokenKind_eq_dec (Kind (Tok Pb)) kw_while);
      [contradiction|reflexivity].
  - intros Hsemi.
    rewrite ParseStatementOrDeclaration_S, Hdo, Hret, returning_Returned.
    rewrite AfterSwitch_semi by exact Hsemi. reflexivity.
Qed.

Lemma ParseDoStatement_steps_witness :
  ParseDoStatement sample 2
    (start [kw_do; semi; kw_while; l_paren; identifier; r_paren; semi;
            kw_break]) =
  Returned
    (mkParser (mkLang true false) (located 7 [semi; kw_break]) []
       [CallParseParenExpression])
  /\
  ParseStatementOrDeclaration sample 3 true
    (start [kw_do; semi; kw_while; l_paren; identifier; r_paren; semi;
            kw_break]) =
  Returned
    (mkParser (mkLang true false) (located 8 [kw_break]) []
       [CallParseParenExpression])
  /\
  ParseDoStatement sample 2
    (start [kw_do; semi; identifier; r_paren; kw_break]) =
  Returned
    (mkParser (mkLang true false) []
       [mkDiag 3 err_expected_while EmptyString;
        mkDiag 1 err_matching EmptyString]
       [CallSkipUntil semi]).
Proof.
  destruct
    (ParseDoStatement_steps sample 1
       (start [kw_do; semi; kw_while; l_paren; identifier; r_paren; semi;
               kw_break]) eq_refl) as [_ H].
  destruct
    (H true
       (mkParser (mkLang true false)
          (located 3 [kw_while; l_paren; identifier; r_paren; semi; kw_break])
          [] []) eq_refl) as (H1 & _ & H3).
  destruct
    (ParseDoStatement_steps sample 1
       (start [kw_do; semi; identifier; r_paren; kw_break]) eq_refl)
    as [_ H'].
  destruct
    (H' true
       (mkParser (mkLang true false)
          (located 3 [identifier; r_paren; kw_break]) [] []) eq_refl)
    as (H1' & H2' & _).
  split; [exact H1|]. split; [exact (H3 eq_refl)|].
  rewrite H1', H2'.
  - reflexivity.
  - simpl. discriminate.
Defined.

(** ** The for statement with empty clauses *)

(** C5: on [for ( ; ; )] followed by a statement, the for-routine consumes
    the five tokens of the header, reports nothing and delegates to nobody
    (so the expression parser is not invoked), and then parses exactly one
    body statement: its outcome is the outcome of [ParseStatement] on the
    parser that differs from the initial one only by the five tokens. *)
Theorem ParseForStatement_empty_clauses :
  forall (X : Collaborators) (fuel : nat) (P : Parser)
         (t1 t2 t3 t4 t5 : Token) (body : list Token),
    Toks P = t1 :: t2 :: t3 :: t4 :: t5 :: body ->
    Kind t1 = kw_for -> Kind t2 = l_paren -> Kind t3 = semi ->
    Kind t4 = semi -> Kind t5 = r_paren ->
    ParseForStatement X (S fuel) P =
    ParseStatement X fuel (mkParser (Lang P) body (Diags P) (Calls P)).
Proof.
  intros X fuel [L ts D C] t1 t2 t3 t4 t5 body Hts H1 H2 H3 H4 H5.
  simpl in Hts. subst ts. rewrite ParseForStatement_S.
  cbn [Tok Toks hd]. rewrite H1.
  destruct (TokenKind_eq_dec kw_for kw_for) as [_|n]; [|congruence].
  cbv zeta. cbn [ConsumeToken ConsumeParen Tok Toks hd tl Lang Diags Calls].
  rewrite H2.
  destruct (TokenKind_eq_dec l_paren l_paren) as [_|n]; [|congruence].
  rewrite ParseForStatement_first_semi by exact H3.
  cbn [ConsumeToken ConsumeParen Tok Toks hd tl Lang Diags Calls].
  rewrite ParseForStatement_second_semi by exact H4.
  cbn [ConsumeToken ConsumeParen Tok Toks hd tl Lang Diags Calls].
  rewrite ParseForStatement_third_r_paren by exact H5.
  cbn [ConsumeToken ConsumeParen Tok Toks hd tl Lang Diags Calls].
  rewrite H5.
  destruct (TokenKind_eq_dec r_paren r_paren) as [_|n]; [|congruence].
  reflexivity.
Qed.

Lemma ParseForStatement_empty_clauses_witness :
  ParseForStatement sample 2
    (start [kw_for; l_paren; semi; semi; r_paren; semi; kw_break]) =
  Returned (mkParser (mkLang true false) (located 7 [kw_break]) [] []).
Proof.
  rewrite (@ParseForStatement_empty_clauses sample 1
             (start [kw_for; l_paren; semi; semi; r_paren; semi; kw_break])
             (mkToken kw_for 1) (mkToken l_paren 2) (mkToken semi 3)
             (mkToken semi 4) (mkToken r_paren 5)
             (located 6 [semi; kw_break]));
    reflexivity.
Defined.

(** ** The goto statement *)

(** C6: after [goto], an identifier is consumed and nothing more; a [*]
    with extensions enabled gets exactly one indirect-goto advisory, is
    consumed, and the expression parser then consumes the target; a [*] with
    extensions disabled is left in the stream and the routine reports
    nothing. *)
Theorem ParseGotoStatement_cases :
  forall (X : Collaborators) (P : Parser),
    Kind (Tok P) = kw_goto ->
    let P1 := ConsumeToken P in
    (Kind (Tok P1) = identifier ->
       ParseGotoStatement X P =
       Returned (mkParser (Lang P) (tl (tl (Toks P))) (Diags P) (Calls P)))
    /\
    (Kind (Tok P1) = star -> NoExtensions (Lang P) = false ->
       let e := parseExpression X (Lang P) (tl (tl (Toks P))) in
       ParseGotoStatement X P =
       Returned (mkParser (Lang P)
                   (skipn (fst e) (tl (tl (Toks P))))
                   ((Diags P ++
                     [mkDiag (Loc (Tok P1)) ext_gnu_indirect_goto EmptyString])
                    ++ snd e)
                   (Calls P ++ [CallParseExpression])))
    /\
    (Kind (Tok P1) = star -> NoExtensions (Lang P) = true ->
       ParseGotoStatement X P =
       Returned (mkParser (Lang P) (tl (Toks P)) (Diags P) (Calls P))).
Proof.
  intros X P Hgoto P1. unfold ParseGotoStatement.
  destruct (TokenKind_eq_dec (Kind (Tok P)) kw_goto) as [_|n]; [|contradiction].
  fold P1. repeat split.
  - intros Hid.
    destruct (TokenKind_eq_dec (Kind (Tok P1)) identifier); [|contradiction].
    reflexivity.
  - intros Hstar Hext.
    destruct (TokenKind_eq_dec (Kind (Tok P1)) identifier) as [e|_];
      [congruence|].
    unfold isKind.
    destruct (TokenKind_eq_dec (Kind (Tok P1)) star); [|contradiction].
    change (Lang P1) with (Lang P). rewrite Hext. reflexivity.
  - intros Hstar Hext.
    destruct (TokenKind_eq_dec (Kind (Tok P1)) identifier) as [e|_];
      [congruence|].
    unfold isKind.
    destruct (TokenKind_eq_dec (Kind (Tok P1)) star); [|contradiction].
    change (Lang P1) with (Lang P). rewrite Hext. reflexivity.
Qed.

Lemma ParseGotoStatement_cases_witness :
  ParseGotoStatement sample (start [kw_goto; identifier; semi]) =
    Returned (mkParser (mkLang true false) (located 3 [semi]) [] [])
  /\
  ParseGotoStatement sample (start [kw_goto; star; identifier; semi]) =
    Returned (mkParser (mkLang true false) (located 4 [semi])
                [mkDiag 2 ext_gnu_indirect_goto EmptyString]
                [CallParseExpression])
  /\
  ParseGotoStatement sample (start_noext [kw_goto; star; identifier; semi]) =
    Returned (mkParser (mkLang true true) (located 2 [star; identifier; semi])
                [] []).
Proof.
  split; [|split].
  - apply (ParseGotoStatement_cases sample (start [kw_goto; identifier; semi]));
      reflexivity.
  - apply (ParseGotoStatement_cases sample
             (start [kw_goto; star; identifier; semi])); reflexivity.
  - apply (ParseGotoStatement_cases sample
             (start_noext [kw_goto; star; identifier; semi])); reflexivity.
Defined.

(** ** Termination of every routine *)

(** C7: when the skip-to-token recovery advances the stream (the
    collaborators of the model are total, and the consume operations of the
    token stream take one token each), every routine returns: the dispatcher
    on every parser state, and each statement routine on every state whose
    current token is the one its assertion asks for.  No call ends on a
    failed assertion, and some call depth is always enough. *)
Theorem every_routine_returns :
  forall X : Collaborators,
    SkipUntilAdvances X ->
    (forall (OnlyStatement : bool) (P : Parser),
       exists (fuel : nat) (P' : Parser),
         ParseStatementOrDeclaration X fuel OnlyStatement P = Returned P') /\
    (forall P : Parser, Kind (Tok P) = l_brace ->
       exists (fuel : nat) (P' : Parser),
         ParseCompoundStatement X fuel P = Returned P') /\
    (forall P : Parser, Kind (Tok P) = kw_if ->
       exists (fuel : nat) (P' : Parser),
         ParseIfStatement X fuel P = Returned P') /\
    (forall P : Parser, Kind (Tok P) = kw_switch ->
       exists (fuel : nat) (P' : Parser),
         ParseSwitchStatement X fuel P = Returned P') /\
    (forall P : Parser, Kind (Tok P) = kw_while ->
       exists (fuel : nat) (P' : Parser),
         ParseWhileStatement X fuel P = Returned P') /\
    (forall P : Parser, Kind (Tok P) = kw_do ->
       exists (fuel : nat) (P' : Parser),
         ParseDoStatement X fuel P = Returned P') /\
    (forall P : Parser, Kind (Tok P) = kw_for ->
       exists (fuel : nat) (P' : Parser),
         ParseForStatement X fuel P = Returned P') /\
    (forall P : Parser, Kind (Tok P) = kw_goto ->
       exists P' : Parser, ParseGotoStatement X P = Returned P') /\
    (forall P : Parser, Kind (Tok P) = kw_return ->
       exists P' : Parser, ParseReturnStatement X P = Returned P').
Proof.
  intros X Hadv.
  split; [intros b P; apply ParseStatementOrDeclaration_returns; exact Hadv|].
  repeat split; intros P Hk.
  - destruct (ParseCompoundStatement_returns X (remaining P)
                (ReturnsBelow_all X Hadv _) P (le_n _) Hk)
      as (fuel & P' & H & _).
    exists fuel, P'. exact H.
  - destruct (ParseIfStatement_returns X (remaining P)
                (ReturnsBelow_all X Hadv _) P (le_n _) Hk)
      as (fuel & P' & H & _).
    exists fuel, P'. exact H.
  - destruct (ParseSwitchStatement_returns X (remaining P)
                (ReturnsBelow_all X Hadv _) P (le_n _) Hk)
      as (fuel & P' & H & _).
    exists fuel, P'. exact H.
  - destruct (ParseWhileStatement_returns X (remaining P)
                (ReturnsBelow_all X Hadv _) P (le_n _) Hk)
      as (fuel & P' & H & _).
    exists fuel, P'. exact H.
  - destruct (ParseDoStatement_returns X (remaining P)
                (ReturnsBelow_all X Hadv _) P (le_n _) Hk)
      as (fuel & P' & H & _).
    exists fuel, P'. exact H.
  - destruct (ParseForStatement_returns X (remaining P)
                (ReturnsBelow_all X Hadv _) P (le_n _) Hk)
      as (fuel & P' & H & _).
    exists fuel, P'. exact H.
  - destruct (ParseGotoStatement_returns X P Hk) as (P' & H & _).
    exists P'. exact H.
  - destruct (ParseReturnStatement_returns X P Hk) as (P' & H & _).
    exists P'. exact H.
Qed.

Lemma every_routine_returns_witness :
  (exists (fuel : nat) (P' : Parser),
     ParseStatementOrDeclaration sample fuel true
       (start [l_brace; kw_if; identifier; kw_do; r_paren; r_brace; kw_for])
     = Returned P')
  /\
  (exists (fuel : nat) (P' : Parser),
     ParseForStatement sample fuel
       (start [kw_for; l_paren; semi; semi; r_paren; l_brace; kw_break])
     = Returned P').
Proof.
  split.
  - apply (proj1 (every_routine_returns sample skip_until_advances)).
  - apply (proj2 (every_routine_returns sample skip_until_advances)).
    reflexivity.
Defined.

(** Without the assumption the loop of the compound statement need not end:
    with a recovery that never advances, the dispatcher stays at a token it
    has no case for, and no call depth is enough. *)
Lemma stuck_loop_runs_out (fuel : nat) :
  forall P : Parser,
    Kind (Tok P) = kw_else ->
    ParseCompoundStatement_loop stuck fuel P = OutOfFuel.
Proof.
  induction fuel as [|fuel IH]; intros P Hk; [reflexivity|].
  rewrite ParseCompoundStatement_loop_S, Hk. cbn [isKind negb andb].
  destruct fuel as [|fuel]; [reflexivity|].
  rewrite ParseStatementOrDeclaration_S, Hk, returning_Returned.
  cbn [bind AfterSwitch]. apply IH.
  unfold Tok. cbn [SkipUntil delegate Toks skipUntil stuck fst skipn Diag].
  exact Hk.
Qed.

Remark stuck_compound_statement_never_returns :
  forall fuel : nat,
    ParseCompoundStatement stuck fuel (start [l_brace; kw_else; r_brace])
    = OutOfFuel.
Proof.
  intros [|fuel]; [reflexivity|].
  rewrite ParseCompoundStatement_S. cbn [start located Tok Toks hd Kind].
  destruct (TokenKind_eq_dec l_brace l_brace) as [_|n]; [|congruence].
  rewrite stuck_loop_runs_out; reflexivity.
Qed.

(** ** The do statement under the semicolon step *)

(** C8: when the do-routine leaves through one of its error exits (no
    [while] after the body, or no opening parenthesis after [while]), each
    ending in a skip to the next semicolon, the dispatcher still runs the
    shared semicolon step on the state the routine returned with: if the
    token the recovery stopped at is not a semicolon, one more diagnostic,
    the missing semicolon after the do/while loop, is reported and the skip to
    the next semicolon runs a second time. *)
Theorem do_recovery_then_semicolon_step :
  forall (X : Collaborators) (fuel : nat) (OnlyStatement : bool)
         (P Pb Pr : Parser),
    Kind (Tok P) = kw_do ->
    ParseStatement X fuel (ConsumeToken P) = Returned Pb ->
    DoRecovery X P Pb Pr ->
    Kind (Tok Pr) <> semi ->
    ParseDoStatement X (S fuel) P = Returned Pr /\
    Calls Pr = Calls Pb ++ [CallSkipUntil semi] /\
    ParseStatementOrDeclaration X (S (S fuel)) OnlyStatement P =
    Returned
      (mkParser (Lang Pr)
         (skipn (skipUntil X semi (Toks Pr)) (Toks Pr))
         (Diags Pr ++
          [mkDiag (Loc (Tok Pr)) err_expected_semi_after "do/while loop"])
         (Calls Pb ++ [CallSkipUntil semi; CallSkipUntil semi])).
Proof.
  intros X fuel b P Pb Pr Hdo Hbody Hrec Hsemi.
  pose proof (ParseDoStatement_recovery X fuel P Pb Pr Hdo Hbody Hrec) as Hret.
  assert (Hc : Calls Pr = Calls Pb ++ [CallSkipUntil semi])
    by (destruct Hrec; reflexivity).
  split; [exact Hret|]. split; [exact Hc|].
  rewrite ParseStatementOrDeclaration_S, Hdo, Hret, returning_Returned.
  rewrite AfterSwitch_not_semi by exact Hsemi.
  rewrite SkipUntil_Diag, Hc, <- app_assoc. reflexivity.
Qed.

Lemma do_recovery_then_semicolon_step_witness :
  ParseDoStatement sample 2
    (start [kw_do; semi; identifier; semi; kw_break; semi; kw_continue]) =
  Returned
    (mkParser (mkLang true false) (located 5 [kw_break; semi; kw_continue])
       [mkDiag 3 err_expected_while EmptyString;
        mkDiag 1 err_matching EmptyString]
       [CallSkipUntil semi])
  /\
  ParseStatementOrDeclaration sample 3 true
    (start [kw_do; semi; identifier; semi; kw_break; semi; kw_continue]) =
  Returned
    (mkParser (mkLang true false) (located 7 [kw_continue])
       [mkDiag 3 err_expected_while EmptyString;
        mkDiag 1 err_matching EmptyString;
        mkDiag 5 err_expected_semi_after "do/while loop"]
       [CallSkipUntil semi; CallSkipUntil semi]).
Proof.
  destruct
    (@do_recovery_then_semicolon_step sample 1 true
       (start [kw_do; semi; identifier; semi; kw_break; semi; kw_continue])
       (mkParser (mkLang true false)
          (located 3 [identifier; semi; kw_break; semi; kw_continue]) [] [])
       (mkParser (mkLang true false) (located 5 [kw_break; semi; kw_continue])
          [mkDiag 3 err_expected_while EmptyString;
           mkDiag 1 err_matching EmptyString]
          [CallSkipUntil semi]))
    as [H1 [_ H2]].
  - reflexivity.
  - reflexivity.
  - apply (DoRecovery_missing_while sample
             (start [kw_do; semi; identifier; semi; kw_break; semi;
                     kw_continue])
             (mkParser (mkLang true false)
                (located 3 [identifier; semi; kw_break; semi; kw_continue])
                [] [])).
    simpl. discriminate.
  - simpl. discriminate.
  - split; [exact H1|exact H2].
Defined.

(** ** The [OnlyStatement] flag *)

(** C9: [ParseStatementOrDeclaration] with [OnlyStatement = true] has the
    same outcome, on every parser state and so on every token stream, as
    with [OnlyStatement = false]: the tokens consumed, the diagnostics
    reported and the delegations made are the same. *)
Theorem OnlyStatement_has_no_effect :
  forall (X : Collaborators) (fuel : nat) (P : Parser),
    ParseStatementOrDeclaration X fuel true P =
    ParseStatementOrDeclaration X fuel false P.
Proof.
  intros X fuel P. destruct fuel as [|fuel]; reflexivity.
Qed.

(** ** Missing semicolons in the for statement *)

Lemma ParseForStatement_from_clauses (X : Collaborators) (fuel : nat)
    (P : Parser) :
  Kind (Tok P) = kw_for ->
  Kind (Tok (ConsumeToken P)) = l_paren ->
  ParseForStatement X (S fuel) P =
  ForClosingParenAndBody X fuel (Loc (Tok (ConsumeToken P)))
    (ParseForStatement_third X
       (ParseForStatement_second X (Loc (Tok P))
          (ParseForStatement_first X (Loc (Tok P))
             (ConsumeParen (ConsumeToken P))))).
Proof.
  intros Hfor Hparen. rewrite ParseForStatement_S.
  destruct (TokenKind_eq_dec (Kind (Tok P)) kw_for) as [_|n]; [|contradiction].
  cbv zeta.
  destruct (TokenKind_eq_dec (Kind (Tok (ConsumeToken P))) l_paren) as [_|n];
    [|contradiction].
  unfold ForClosingParenAndBody.
  set (P5 := ParseForStatement_third X _).
  destruct (TokenKind_eq_dec (Kind (Tok P5)) r_paren); [reflexivity|].
  rewrite SkipUntil_Diag. unfold Diag. cbn [Lang Toks Diags Calls].
  rewrite <- app_assoc. reflexivity.
Qed.

Lemma ForClauseRecovered_eq (X : Collaborators) (ForLoc : SourceLocation)
    (Pe : Parser) :
  SkipUntil X semi
    (Diag ForLoc err_matching EmptyString
       (Diag (Loc (Tok Pe)) err_expected_semi_for EmptyString Pe)) =
  ForClauseRecovered X ForLoc Pe.
Proof.
  rewrite SkipUntil_Diag. unfold Diag, ForClauseRecovered.
  cbn [Lang Toks Diags Calls]. rewrite <- app_assoc. reflexivity.
Qed.

Lemma ExpressionThenSemicolon_eq (X : Collaborators)
    (ForLoc : SourceLocation) (P : Parser) :
  (if TokenKind_eq_dec (Kind (Tok (ParseExpression X P))) semi then
     ConsumeToken (ParseExpression X P)
   else
     SkipUntil X semi
       (Diag ForLoc err_matching EmptyString
          (Diag (Loc (Tok (ParseExpression X P))) err_expected_semi_for
                EmptyString (ParseExpression X P)))) =
  ExpressionThenSemicolon X ForLoc P.
Proof.
  unfold ExpressionThenSemicolon. cbv zeta.
  destruct (TokenKind_eq_dec (Kind (Tok (ParseExpression X P))) semi);
    [reflexivity|apply ForClauseRecovered_eq].
Qed.

Lemma ParseForStatement_first_as_specified (X : Collaborators)
    (ForLoc : SourceLocation) (P : Parser) :
  ParseForStatement_first X ForLoc P = ForFirstClauseAsSpecified X ForLoc P.
Proof.
  unfold ForFirstClauseAsSpecified.
  destruct (TokenKind_eq_dec (Kind (Tok P)) semi) as [e|n].
  - apply ParseForStatement_first_semi. exact e.
  - destruct (looksLikeDeclarationSpecifier X (Tok P)) eqn:Hd.
    + unfold ParseForStatement_first.
      destruct (TokenKind_eq_dec (Kind (Tok P)) semi); [contradiction|].
      unfold isDeclarationSpecifier. rewrite Hd.
      destruct (C99 (Lang P)); reflexivity.
    + rewrite (ParseForStatement_first_expression X ForLoc P n Hd).
      apply ExpressionThenSemicolon_eq.
Qed.

Lemma ParseForStatement_second_as_specified (X : Collaborators)
    (ForLoc : SourceLocation) (P : Parser) :
  ParseForStatement_second X ForLoc P =
  ForSecondClauseAsSpecified X ForLoc P.
Proof.
  unfold ForSecondClauseAsSpecified.
  destruct (TokenKind_eq_dec (Kind (Tok P)) semi) as [e|n].
  - apply ParseForStatement_second_semi. exact e.
  - rewrite (ParseForStatement_second_expression X ForLoc P n).
    apply ExpressionThenSemicolon_eq.
Qed.

Lemma ParseForStatement_third_as_specified (X : Collaborators) (P : Parser) :
  ParseForStatement_third X P = ForThirdClauseAsSpecified X P.
Proof. reflexivity. Qed.

(** C10: in the for-routine a missing semicolon after the expression of the
    first clause, or of the second, is reported and recovered from by the
    skip to the next semicolon, and the routine does not return there.  From
    the recovered state it goes on as the specification words the rest of the
    header: after the first clause with the second clause (its expression, if
    any, and its semicolon) and the third (its expression, if any); after the
    second clause with the third; and then with the check for the closing
    parenthesis and, when it is there, the body statement. *)
Theorem ParseForStatement_continues_after_missing_semicolon :
  forall (X : Collaborators) (fuel : nat) (P : Parser),
    Kind (Tok P) = kw_for ->
    Kind (Tok (ConsumeToken P)) = l_paren ->
    let ForLoc := Loc (Tok P) in
    let LParenLoc := Loc (Tok (ConsumeToken P)) in
    let P0 := mkParser (Lang P) (tl (tl (Toks P))) (Diags P) (Calls P) in
    (Kind (Tok P0) <> semi ->
     looksLikeDeclarationSpecifier X (Tok P0) = false ->
     Kind (Tok (ParseExpression X P0)) <> semi ->
     ParseForStatement X (S fuel) P =
     ForClosingParenAndBody X fuel LParenLoc
       (ForThirdClauseAsSpecified X
          (ForSecondClauseAsSpecified X ForLoc
             (ForClauseRecovered X ForLoc (ParseExpression X P0)))))
    /\
    (forall P3 : Parser,
       P3 = ForFirstClauseAsSpecified X ForLoc P0 ->
       Kind (Tok P3) <> semi ->
       Kind (Tok (ParseExpression X P3)) <> semi ->
       ParseForStatement X (S fuel) P =
       ForClosingParenAndBody X fuel LParenLoc
         (ForThirdClauseAsSpecified X
            (ForClauseRecovered X ForLoc (ParseExpression X P3)))).
Proof.
  intros X fuel P Hfor Hparen ForLoc LParenLoc P0.
  rewrite (ParseForStatement_from_clauses X fuel P Hfor Hparen).
  change (ConsumeParen (ConsumeToken P)) with P0.
  fold ForLoc LParenLoc.
  rewrite ParseForStatement_third_as_specified,
    ParseForStatement_second_as_specified,
    ParseForStatement_first_as_specified.
  split.
  - intros Hs Hd He. unfold ForFirstClauseAsSpecified.
    destruct (TokenKind_eq_dec (Kind (Tok P0)) semi); [contradiction|].
    rewrite Hd. unfold ExpressionThenSemicolon. cbv zeta.
    destruct (TokenKind_eq_dec (Kind (Tok (ParseExpression X P0))) semi);
      [contradiction|reflexivity].
  - intros P3 HP3 Hs He. rewrite <- HP3.
    unfold ForSecondClauseAsSpecified.
    destruct (TokenKind_eq_dec (Kind (Tok P3)) semi); [contradiction|].
    unfold ExpressionThenSemicolon. cbv zeta.
    destruct (TokenKind_eq_dec (Kind (Tok (ParseExpression X P3))) semi);
      [contradiction|reflexivity].
Qed.

Lemma ParseForStatement_continues_after_missing_semicolon_witness :
  ParseForStatement sample 2
    (start [kw_for; l_paren; identifier; r_paren; semi; identifier; less;
            identifier; semi; identifier; plusplus; r_paren; semi;
            kw_break]) =
  Returned
    (mkParser (mkLang true false) (located 14 [kw_break])
       [mkDiag 4 err_expected_semi_for EmptyString;
        mkDiag 1 err_matching EmptyString]
       [CallParseExpression; CallSkipUntil semi; CallParseExpression;
        CallParseExpression])
  /\
  ParseForStatement sample 2
    (start [kw_for; l_paren; semi; identifier; r_paren; semi; identifier;
            plusplus; r_paren; semi; kw_break]) =
  Returned
    (mkParser (mkLang true false) (located 11 [kw_break])
       [mkDiag 5 err_expected_semi_for EmptyString;
        mkDiag 1 err_matching EmptyString]
       [CallParseExpression; CallSkipUntil semi; CallParseExpression]).
Proof.
  split.
  - destruct
      (ParseForStatement_continues_after_missing_semicolon sample 1
         (start [kw_for; l_paren; identifier; r_paren; semi; identifier;
                 less; identifier; semi; identifier; plusplus; r_paren;
                 semi; kw_break]) eq_refl eq_refl) as [H _].
    rewrite H.
    + reflexivity.
    + simpl. discriminate.
    + reflexivity.
    + simpl. discriminate.
  - destruct
      (ParseForStatement_continues_after_missing_semicolon sample 1
         (start [kw_for; l_paren; semi; identifier; r_paren; semi;
                 identifier; plusplus; r_paren; semi; kw_break])
         eq_refl eq_refl) as [_ H].
    rewrite (H _ eq_refl).
    + reflexivity.
    + simpl. discriminate.
    + simpl. discriminate.
Defined.

(** * Further properties of the routines *)

(** ** The routines only consume, report and delegate *)

Lemma returning_Returned_inv (X : Collaborators) (o : Outcome)
    (k : Parser -> SwitchExit) (P' : Parser) :
  returning X o k = Returned P' ->
  exists P1, o = Returned P1 /\ P' = AfterSwitch X (k P1).
Proof.
  unfold returning. intros H. apply bind_Returned in H.
  destruct H as (P1 & H1 & H2). exists P1. split; [exact H1|].
  injection H2 as H2. symmetry. exact H2.
Qed.

Lemma Extends_refl (P : Parser) : Extends P P.
Proof.
  repeat split.
  - exists 0. reflexivity.
  - exists []. symmetry. apply app_nil_r.
  - exists []. symmetry. apply app_nil_r.
Qed.

Lemma Extends_trans (P Q R : Parser) :
  Extends P Q -> Extends Q R -> Extends P R.
Proof.
  intros (HL & (n & Hn) & (ds & Hd) & (cs & Hc))
         (HL' & (n' & Hn') & (ds' & Hd') & (cs' & Hc')).
  repeat split.
  - congruence.
  - exists (n' + n). rewrite Hn', Hn. apply skipn_skipn.
  - exists (ds ++ ds'). rewrite Hd', Hd. symmetry. apply app_assoc.
  - exists (cs ++ cs'). rewrite Hc', Hc. symmetry. apply app_assoc.
Qed.

Lemma Extends_ConsumeToken (P Q : Parser) :
  Extends P Q -> Extends P (ConsumeToken Q).
Proof.
  intros H. apply (Extends_trans P Q _ H). repeat split.
  - exists 1. cbn [ConsumeToken Toks]. destruct (Toks Q); reflexivity.
  - exists []. symmetry. apply app_nil_r.
  - exists []. symmetry. apply app_nil_r.
Qed.

Lemma Extends_ConsumeBrace (P Q : Parser) :
  Extends P Q -> Extends P (ConsumeBrace Q).
Proof. exact (Extends_ConsumeToken P Q). Qed.

Lemma Extends_ConsumeParen (P Q : Parser) :
  Extends P Q -> Extends P (ConsumeParen Q).
Proof. exact (Extends_ConsumeToken P Q). Qed.

Lemma Extends_Diag (L : SourceLocation) (ID : DiagID) (M : string)
    (P Q : Parser) :
  Extends P Q -> Extends P (Diag L ID M Q).
Proof.
  intros H. apply (Extends_trans P Q _ H). repeat split.
  - exists 0. reflexivity.
  - exists [mkDiag L ID M]. reflexivity.
  - exists []. symmetry. apply app_nil_r.
Qed.

Lemma Extends_delegate (c : Call) (e : Effect) (P Q : Parser) :
  Extends P Q -> Extends P (delegate c e Q).
Proof.
  intros H. apply (Extends_trans P Q _ H). repeat split.
  - exists (fst e). reflexivity.
  - exists (snd e). reflexivity.
  - exists [c]. reflexivity.
Qed.

Create HintDb extends.

Section OnlyExtend.

Variable X : Collaborators.

Lemma Extends_ParseExpression (P Q : Parser) :
  Extends P Q -> Extends P (ParseExpression X Q).
Proof. apply Extends_delegate. Qed.

Lemma Extends_ParseParenExpression (P Q : Parser) :
  Extends P Q -> Extends P (ParseParenExpression X Q).
Proof. apply Extends_delegate. Qed.

Lemma Extends_ParseDeclaration (Ctx : DeclaratorContext) (P Q : Parser) :
  Extends P Q -> Extends P (ParseDeclaration X Ctx Q).
Proof. apply Extends_delegate. Qed.

Lemma Extends_SkipUntil (T : TokenKind) (P Q : Parser) :
  Extends P Q -> Extends P (SkipUntil X T Q).
Proof. apply Extends_delegate. Qed.

#[local] Hint Resolve Extends_refl Extends_ConsumeToken Extends_ConsumeBrace
  Extends_ConsumeParen Extends_Diag Extends_ParseExpression
  Extends_ParseParenExpression Extends_ParseDeclaration Extends_SkipUntil
  : extends.

Lemma Extends_AfterSwitch (E : SwitchExit) (P : Parser) :
  Extends P (match E with ExitReturn Q => Q | ExitBreak _ Q => Q end) ->
  Extends P (AfterSwitch X E).
Proof.
  destruct E as [Q|SemiError Q]; cbn [AfterSwitch]; intros H; [exact H|].
  destruct (TokenKind_eq_dec (Kind (Tok Q)) semi); auto with extends.
Qed.

Lemma Extends_ParseForStatement_first (ForLoc : SourceLocation)
    (P Q : Parser) :
  Extends P Q -> Extends P (ParseForStatement_first X ForLoc Q).
Proof.
  intros H. unfold ParseForStatement_first.
  destruct (TokenKind_eq_dec (Kind (Tok Q)) semi); [auto with extends|].
  destruct (isDeclarationSpecifier X Q).
  - destruct (negb (C99 (Lang Q))); auto with extends.
  - destruct (TokenKind_eq_dec (Kind (Tok (ParseExpression X Q))) semi);
      auto 6 with extends.
Qed.

Lemma Extends_ParseForStatement_second (ForLoc : SourceLocation)
    (P Q : Parser) :
  Extends P Q -> Extends P (ParseForStatement_second X ForLoc Q).
Proof.
  intros H. unfold ParseForStatement_second.
  destruct (TokenKind_eq_dec (Kind (Tok Q)) semi) as [e|n]; cbv zeta.
  - destruct (TokenKind_eq_dec (Kind (Tok Q)) semi); auto 6 with extends.
  - destruct (TokenKind_eq_dec (Kind (Tok (ParseExpression X Q))) semi);
      auto 6 with extends.
Qed.

Lemma Extends_ParseForStatement_third (P Q : Parser) :
  Extends P Q -> Extends P (ParseForStatement_third X Q).
Proof.
  intros H. unfold ParseForStatement_third.
  destruct (TokenKind_eq_dec (Kind (Tok Q)) r_paren); auto with extends.
Qed.

#[local] Hint Resolve Extends_ParseForStatement_first
  Extends_ParseForStatement_second Extends_ParseForStatement_third
  : extends.

Lemma ParseGotoStatement_extends (P P' : Parser) :
  ParseGotoStatement X P = Returned P' -> Extends P P'.
Proof.
  unfold ParseGotoStatement.
  destruct (TokenKind_eq_dec (Kind (Tok P)) kw_goto); [|discriminate].
  cbv zeta.
  destruct (TokenKind_eq_dec (Kind (Tok (ConsumeToken P))) identifier).
  - intros H. injection H as H. subst P'. auto with extends.
  - destruct (isKind (Kind (Tok (ConsumeToken P))) star
              && negb (NoExtensions (Lang (ConsumeToken P))));
      intros H; injection H as H; subst P'; auto 6 with extends.
Qed.

Lemma ParseReturnStatement_extends (P P' : Parser) :
  ParseReturnStatement X P = Returned P' -> Extends P P'.
Proof.
  unfold ParseReturnStatement.
  destruct (TokenKind_eq_dec (Kind (Tok P)) kw_return); [|discriminate].
  cbv zeta.
  destruct (TokenKind_eq_dec (Kind (Tok (ConsumeToken P))) semi);
    intros H; injection H as H; subst P'; auto with extends.
Qed.

Ltac returned_subst :=
  repeat match goal with
         | H : Returned _ = Returned _ |- _ => injection H as H; subst
         end.

Lemma routines_extend (n : nat) :
  (forall b P P',
     ParseStatementOrDeclaration X n b P = Returned P' -> Extends P P') /\
  (forall P P', ParseCompoundStatement X n P = Returned P' -> Extends P P') /\
  (forall P P',
     ParseCompoundStatement_loop X n P = Returned P' -> Extends P P') /\
  (forall P P', ParseIfStatement X n P = Returned P' -> Extends P P') /\
  (forall P P', ParseSwitchStatement X n P = Returned P' -> Extends P P') /\
  (forall P P', ParseWhileStatement X n P = Returned P' -> Extends P P') /\
  (forall P P', ParseDoStatement X n P = Returned P' -> Extends P P') /\
  (forall P P', ParseForStatement X n P = Returned P' -> Extends P P').
Proof.
  induction n as [|n IH].
  - refine (conj _ (conj _ (conj _ (conj _ (conj _ (conj _ (conj _ _)))))));
      intros; discriminate.
  - destruct IH as (IHd & IHc & IHl & IHi & IHs & IHw & IHo & IHf).
    refine (conj _ (conj _ (conj _ (conj _ (conj _ (conj _ (conj _ _)))))));
      intros until P'; intros H.
    + rewrite ParseStatementOrDeclaration_S in H.
      destruct (Kind (Tok P));
        apply returning_Returned_inv in H; destruct H as (P1 & H1 & H2);
        subst P'; apply Extends_AfterSwitch; cbv beta iota;
        solve [ returned_subst; auto 6 with extends
              | eauto
              | eauto using ParseGotoStatement_extends,
                  ParseReturnStatement_extends ].
    + rewrite ParseCompoundStatement_S in H.
      destruct (TokenKind_eq_dec (Kind (Tok P)) l_brace); [|discriminate H].
      apply bind_Returned in H. destruct H as (P1 & H1 & H2).
      apply IHl in H1.
      assert (H0 : Extends P P1)
        by (eapply Extends_trans; [|exact H1]; auto with extends).
      destruct (TokenKind_eq_dec (Kind (Tok P1)) r_brace);
        returned_subst; auto with extends.
    + rewrite ParseCompoundStatement_loop_S in H.
      destruct (negb (isKind (Kind (Tok P)) r_brace)
                && negb (isKind (Kind (Tok P)) eof)).
      * apply bind_Returned in H. destruct H as (P1 & H1 & H2).
        eapply Extends_trans; eauto.
      * returned_subst. auto with extends.
    + rewrite ParseIfStatement_S in H.
      destruct (TokenKind_eq_dec (Kind (Tok P)) kw_if); [|discriminate H].
      destruct (TokenKind_eq_dec (Kind (Tok (ConsumeToken P))) l_paren).
      * apply bind_Returned in H. destruct H as (P1 & H1 & H2).
        apply IHd in H1.
        assert (H0 : Extends P P1)
          by (eapply Extends_trans; [|exact H1]; auto with extends).
        destruct (TokenKind_eq_dec (Kind (Tok P1)) kw_else).
        -- apply IHd in H2. eapply Extends_trans; [|exact H2].
           auto with extends.
        -- returned_subst. exact H0.
      * returned_subst. auto with extends.
    + rewrite ParseSwitchStatement_S in H.
      destruct (TokenKind_eq_dec (Kind (Tok P)) kw_switch); [|discriminate H].
      destruct (TokenKind_eq_dec (Kind (Tok (ConsumeToken P))) l_paren).
      * apply IHd in H. eapply Extends_trans; [|exact H]. auto with extends.
      * returned_subst. auto with extends.
    + rewrite ParseWhileStatement_S in H.
      destruct (TokenKind_eq_dec (Kind (Tok P)) kw_while); [|discriminate H].
      destruct (TokenKind_eq_dec (Kind (Tok (ConsumeToken P))) l_paren).
      * apply IHd in H. eapply Extends_trans; [|exact H]. auto with extends.
      * returned_subst. auto with extends.
    + rewrite ParseDoStatement_S in H.
      destruct (TokenKind_eq_dec (Kind (Tok P)) kw_do); [|discriminate H].
      apply bind_Returned in H. destruct H as (P1 & H1 & H2).
      apply IHd in H1.
      assert (H0 : Extends P P1)
        by (eapply Extends_trans; [|exact H1]; auto with extends).
      destruct (TokenKind_eq_dec (Kind (Tok P1)) kw_while);
        [destruct (TokenKind_eq_dec (Kind (Tok (ConsumeToken P1))) l_paren)|];
        returned_subst; auto 6 with extends.
    + rewrite ParseForStatement_S in H.
      destruct (TokenKind_eq_dec (Kind (Tok P)) kw_for); [|discriminate H].
      cbv zeta in H.
      destruct (TokenKind_eq_dec (Kind (Tok (ConsumeToken P))) l_paren).
      * set (P5 := ParseForStatement_third X _) in H.
        assert (H0 : Extends P P5).
        { unfold P5. apply Extends_ParseForStatement_third,
            Extends_ParseForStatement_second,
            Extends_ParseForStatement_first, Extends_ConsumeParen,
            Extends_ConsumeToken, Extends_refl. }
        clearbody P5.
        destruct (TokenKind_eq_dec (Kind (Tok P5)) r_paren).
        -- apply IHd in H.
           apply (Extends_trans P (ConsumeParen P5) P');
             [apply Extends_ConsumeParen; exact H0|exact H].
        -- injection H as H. subst P'.
           apply Extends_SkipUntil, Extends_Diag, Extends_Diag. exact H0.
      * injection H as H. subst P'.
        apply Extends_SkipUntil, Extends_Diag, Extends_ConsumeToken,
          Extends_refl.
Qed.

End OnlyExtend.

(** X1: whatever the dispatcher or the compound-statement parser returns
    with extends the state it started from: the language options are
    untouched, the stream that is left is a suffix of the stream it got, and
    the diagnostics and the call log it got are still there, in front of what
    was added.  No routine puts a token back or takes a diagnostic away. *)
Theorem routines_only_extend :
  forall (X : Collaborators) (fuel : nat) (P P' : Parser),
    (exists b, ParseStatementOrDeclaration X fuel b P = Returned P') \/
    ParseCompoundStatement X fuel P = Returned P' ->
    Extends P P'.
Proof.
  intros X fuel P P' [[b H]|H].
  - exact (proj1 (routines_extend X fuel) b P P' H).
  - exact (proj1 (proj2 (routines_extend X fuel)) P P' H).
Qed.

Lemma routines_only_extend_witness :
  Extends
    (start [kw_if; identifier; semi; kw_break; semi])
    (mkParser (mkLang true false) (located 4 [kw_break; semi])
       [mkDiag 2 err_expected_lparen_after "if"] [CallSkipUntil semi]).
Proof.
  apply (routines_only_extend sample 2).
  left. exists true. reflexivity.
Defined.

(** ** Progress *)

(** X2: when the skip-to-token recovery advances the stream, every call of
    the dispatcher that returns away from the end of the input has consumed
    at least one token, so a caller that loops over statements, as the
    compound-statement parser does, comes to an end. *)
Theorem dispatcher_consumes_a_token :
  forall (X : Collaborators) (fuel : nat) (b : bool) (P P' : Parser),
    SkipUntilAdvances X ->
    ParseStatementOrDeclaration X fuel b P = Returned P' ->
    Kind (Tok P) <> eof ->
    remaining P' < remaining P.
Proof.
  intros X fuel b P P' Hadv H Hne.
  destruct (ReturnsBelow_all X Hadv (S (remaining P)) b P)
    as (f0 & P0 & H0 & _ & Hlt); [lia|].
  pose proof (ParseStatementOrDeclaration_monotone X b fuel
                (Nat.max fuel f0) P P' (Nat.le_max_l _ _) H) as H1.
  pose proof (ParseStatementOrDeclaration_monotone X b f0
                (Nat.max fuel f0) P P0 (Nat.le_max_r _ _) H0) as H2.
  cbv beta in H1, H2. rewrite H1 in H2. injection H2 as H2. subst P0.
  exact (Hlt Hne).
Qed.

Lemma dispatcher_consumes_a_token_witness :
  remaining
    (mkParser (mkLang true false) (located 3 [r_paren; r_brace]) 
       [mkDiag 1 err_expected_statement_declaration EmptyString]
       [CallSkipUntil semi])
  < remaining (start [kw_else; semi; r_paren; r_brace]).
Proof.
  apply (dispatcher_consumes_a_token sample 1 false
           (start [kw_else; semi; r_paren; r_brace])).
  - exact skip_until_advances.
  - reflexivity.
  - simpl. discriminate.
Defined.

(** ** The assertions *)

Lemma returning_AssertFailed (X : Collaborators) (o : Outcome)
    (k : Parser -> SwitchExit) :
  returning X o k = AssertFailed -> o = AssertFailed.
Proof. destruct o; cbn; intros H; [discriminate H|reflexivity|discriminate H]. Qed.

Lemma bind_AssertFailed (o : Outcome) (k : Parser -> Outcome) :
  bind o k = AssertFailed ->
  o = AssertFailed \/ exists P1, o = Returned P1 /\ k P1 = AssertFailed.
Proof.
  destruct o as [P1| |]; cbn [bind]; intros H.
  - right. exists P1. split; [reflexivity|exact H].
  - left. reflexivity.
  - discriminate H.
Qed.

Lemma routines_pass_their_assertions (X : Collaborators) (n : nat) :
  (forall b P, ParseStatementOrDeclaration X n b P <> AssertFailed) /\
  (forall P, Kind (Tok P) = l_brace ->
             ParseCompoundStatement X n P <> AssertFailed) /\
  (forall P, ParseCompoundStatement_loop X n P <> AssertFailed) /\
  (forall P, Kind (Tok P) = kw_if ->
             ParseIfStatement X n P <> AssertFailed) /\
  (forall P, Kind (Tok P) = kw_switch ->
             ParseSwitchStatement X n P <> AssertFailed) /\
  (forall P, Kind (Tok P) = kw_while ->
             ParseWhileStatement X n P <> AssertFailed) /\
  (forall P, Kind (Tok P) = kw_do ->
             ParseDoStatement X n P <> AssertFailed) /\
  (forall P, Kind (Tok P) = kw_for ->
             ParseForStatement X n P <> AssertFailed).
Proof.
  induction n as [|n IH].
  - refine (conj _ (conj _ (conj _ (conj _ (conj _ (conj _ (conj _ _)))))));
      intros; discriminate.
  - destruct IH as (IHd & IHc & IHl & IHi & IHs & IHw & IHo & IHf).
    refine (conj _ (conj _ (conj _ (conj _ (conj _ (conj _ (conj _ _)))))));
      intros.
    + rewrite ParseStatementOrDeclaration_S. intros H.
      destruct (Kind (Tok P)) eqn:Hk;
        apply returning_AssertFailed in H; try discriminate H.
      * exact (IHc P Hk H).
      * exact (IHo P Hk H).
      * exact (IHf P Hk H).
      * destruct (ParseGotoStatement_returns X P Hk) as (P1 & H1 & _).
        congruence.
      * exact (IHi P Hk H).
      * destruct (ParseReturnStatement_returns X P Hk) as (P1 & H1 & _).
        congruence.
      * exact (IHs P Hk H).
      * exact (IHw P Hk H).
    + rewrite ParseCompoundStatement_S. intros H0.
      destruct (TokenKind_eq_dec (Kind (Tok P)) l_brace); [|contradiction].
      apply bind_AssertFailed in H0. destruct H0 as [H0|(P1 & _ & H0)].
      * exact (IHl _ H0).
      * destruct (TokenKind_eq_dec (Kind (Tok P1)) r_brace); discriminate H0.
    + rewrite ParseCompoundStatement_loop_S. intros H0.
      destruct (negb (isKind (Kind (Tok P)) r_brace)
                && negb (isKind (Kind (Tok P)) eof)); [|discriminate H0].
      apply bind_AssertFailed in H0. destruct H0 as [H0|(P1 & _ & H0)].
      * exact (IHd _ _ H0).
      * exact (IHl _ H0).
    + rewrite ParseIfStatement_S. intros H0.
      destruct (TokenKind_eq_dec (Kind (Tok P)) kw_if); [|contradiction].
      destruct (TokenKind_eq_dec (Kind (Tok (ConsumeToken P))) l_paren);
        [|discriminate H0].
      apply bind_AssertFailed in H0. destruct H0 as [H0|(P1 & _ & H0)].
      * exact (IHd _ _ H0).
      * destruct (TokenKind_eq_dec (Kind (Tok P1)) kw_else);
          [exact (IHd _ _ H0)|discriminate H0].
    + rewrite ParseSwitchStatement_S. intros H0.
      destruct (TokenKind_eq_dec (Kind (Tok P)) kw_switch); [|contradiction].
      destruct (TokenKind_eq_dec (Kind (Tok (ConsumeToken P))) l_paren);
        [exact (IHd _ _ H0)|discriminate H0].
    + rewrite ParseWhileStatement_S. intros H0.
      destruct (TokenKind_eq_dec (Kind (Tok P)) kw_while); [|contradiction].
      destruct (TokenKind_eq_dec (Kind (Tok (ConsumeToken P))) l_paren);
        [exact (IHd _ _ H0)|discriminate H0].
    + rewrite ParseDoStatement_S. intros H0.
      destruct (TokenKind_eq_dec (Kind (Tok P)) kw_do); [|contradiction].
      apply bind_AssertFailed in H0. destruct H0 as [H0|(P1 & _ & H0)].
      * exact (IHd _ _ H0).
      * destruct (TokenKind_eq_dec (Kind (Tok P1)) kw_while);
          [destruct (TokenKind_eq_dec (Kind (Tok (ConsumeToken P1))) l_paren)|];
          discriminate H0.
    + rewrite ParseForStatement_S. intros H0.
      destruct (TokenKind_eq_dec (Kind (Tok P)) kw_for); [|contradiction].
      cbv zeta in H0.
      destruct (TokenKind_eq_dec (Kind (Tok (ConsumeToken P))) l_paren);
        [|discriminate H0].
      set (P5 := ParseForStatement_third X _) in H0. clearbody P5.
      destruct (TokenKind_eq_dec (Kind (Tok P5)) r_paren);
        [exact (IHd _ _ H0)|discriminate H0].
Qed.

(** X3: a call of the dispatcher never ends on a failed assertion,
    whatever the stream, the collaborators and the call depth: every routine
    it enters is entered at the token the routine asserts.  The call returns
    or it runs out of call depth. *)
Theorem dispatcher_never_fails_an_assertion :
  forall (X : Collaborators) (fuel : nat) (b : bool) (P : Parser),
    ParseStatementOrDeclaration X fuel b P = OutOfFuel \/
    exists P', ParseStatementOrDeclaration X fuel b P = Returned P'.
Proof.
  intros X fuel b P.
  pose proof (proj1 (routines_pass_their_assertions X fuel) b P) as H.
  destruct (ParseStatementOrDeclaration X fuel b P) as [P'| |].
  - right. exists P'. reflexivity.
  - exfalso. apply H. reflexivity.
  - left. reflexivity.
Qed.

(** ** A keyword without its opening parenthesis *)

(** X4: when [if], [switch], [while] or [for] is not followed by an opening
    parenthesis, the routine of the statement consumes the keyword, reports
    one "expected '(' after" with the name of the keyword at the token that
    follows, skips to the next semicolon and returns: no condition and no
    body is parsed, whatever the call depth.  The dispatcher returns that
    same state. *)
Theorem keyword_without_opening_parenthesis :
  forall (X : Collaborators) (k : TokenKind) (After : string)
         (routine : nat -> Parser -> Outcome)
         (fuel : nat) (b : bool) (P : Parser),
    ParenthesizedStatement X k After routine ->
    Kind (Tok P) = k ->
    Kind (Tok (ConsumeToken P)) <> l_paren ->
    routine (S fuel) P = Returned (MissingLParen X After P) /\
    ParseStatementOrDeclaration X (S (S fuel)) b P =
    Returned (MissingLParen X After P).
Proof.
  intros X k After routine fuel b P Hr Hk Hp.
  assert (Hroutine : routine (S fuel) P = Returned (MissingLParen X After P)).
  { destruct Hr.
    - rewrite ParseIfStatement_S.
      destruct (TokenKind_eq_dec (Kind (Tok P)) kw_if); [|contradiction].
      destruct (TokenKind_eq_dec (Kind (Tok (ConsumeToken P))) l_paren);
        [contradiction|].
      rewrite SkipUntil_Diag. reflexivity.
    - rewrite ParseSwitchStatement_S.
      destruct (TokenKind_eq_dec (Kind (Tok P)) kw_switch); [|contradiction].
      destruct (TokenKind_eq_dec (Kind (Tok (ConsumeToken P))) l_paren);
        [contradiction|].
      rewrite SkipUntil_Diag. reflexivity.
    - rewrite ParseWhileStatement_S.
      destruct (TokenKind_eq_dec (Kind (Tok P)) kw_while); [|contradiction].
      destruct (TokenKind_eq_dec (Kind (Tok (ConsumeToken P))) l_paren);
        [contradiction|].
      rewrite SkipUntil_Diag. reflexivity.
    - rewrite ParseForStatement_S.
      destruct (TokenKind_eq_dec (Kind (Tok P)) kw_for); [|contradiction].
      cbv zeta.
      destruct (TokenKind_eq_dec (Kind (Tok (ConsumeToken P))) l_paren);
        [contradiction|].
      rewrite SkipUntil_Diag. reflexivity. }
  split; [exact Hroutine|].
  rewrite ParseStatementOrDeclaration_S, Hk.
  destruct Hr; rewrite Hroutine; reflexivity.
Qed.

Lemma keyword_without_opening_parenthesis_witness :
  ParseWhileStatement sample 1
    (start [kw_while; identifier; semi; kw_break; semi]) =
  Returned
    (mkParser (mkLang true false) (located 4 [kw_break; semi])
       [mkDiag 2 err_expected_lparen_after "while"] [CallSkipUntil semi])
  /\
  ParseStatementOrDeclaration sample 2 true
    (start [kw_while; identifier; semi; kw_break; semi]) =
  Returned
    (mkParser (mkLang true false) (located 4 [kw_break; semi])
       [mkDiag 2 err_expected_lparen_after "while"] [CallSkipUntil semi]).
Proof.
  apply (keyword_without_opening_parenthesis sample kw_while "while"
           (ParseWhileStatement sample) 0 true
           (start [kw_while; identifier; semi; kw_break; semi])).
  - apply Parenthesized_while.
  - reflexivity.
  - simpl. discriminate.
Defined.

(** ** The end of the input *)

(** X5: on the empty stream the dispatcher reports one "expected statement
    or declaration" at the end-of-input token, invokes the recovery, and
    returns with the stream still empty, whatever the recovery answers. *)
Theorem dispatcher_at_end_of_input :
  forall (X : Collaborators) (fuel : nat) (b : bool) (P : Parser),
    Toks P = [] ->
    ParseStatementOrDeclaration X (S fuel) b P =
    Returned
      (mkParser (Lang P) []
         (Diags P ++ [mkDiag (Loc eof_token)
                             err_expected_statement_declaration EmptyString])
         (Calls P ++ [CallSkipUntil semi])).
Proof.
  intros X fuel b [L ts D C] H. cbn [Toks] in H. subst ts.
  rewrite ParseStatementOrDeclaration_S. cbn [Tok Toks hd eof_token Kind].
  rewrite returning_Returned. cbn [AfterSwitch]. rewrite SkipUntil_Diag.
  cbn [Toks Lang Diags Calls]. rewrite skipn_nil. reflexivity.
Qed.

Lemma dispatcher_at_end_of_input_witness :
  ParseStatementOrDeclaration stuck 1 false (start []) =
  Returned
    (mkParser (mkLang true false) []
       [mkDiag 0 err_expected_statement_declaration EmptyString]
       [CallSkipUntil semi]).
Proof.
  apply (dispatcher_at_end_of_input stuck 0 false (start [])).
  reflexivity.
Defined.

(** ** Blocks that are not closed *)

Lemma ParseCompoundStatement_loop_at_eof (X : Collaborators) (fuel : nat)
    (P : Parser) :
  Kind (Tok P) = eof ->
  ParseCompoundStatement_loop X (S fuel) P = Returned P.
Proof.
  intros H. rewrite ParseCompoundStatement_loop_S, H. reflexivity.
Qed.

Lemma unterminated_blocks_aux (X : Collaborators) (L : LangOptions)
    (C : list Call) (ts : list Token) :
  forall (t : Token) (D : list Diagnostic) (b : bool),
    Forall (fun t => Kind t = l_brace) (t :: ts) ->
    ParseStatementOrDeclaration X (3 * List.length (t :: ts)) b
      (mkParser L (t :: ts) D C) =
    Returned
      (mkParser L []
         (D ++ repeat (mkDiag (Loc eof_token) err_expected_rbrace EmptyString)
                 (List.length (t :: ts)))
         C).
Proof.
  induction ts as [|t' ts IH]; intros t D b H.
  - inversion H as [|? ? Ht _]; subst.
    change (3 * List.length [t]) with 3.
    rewrite ParseStatementOrDeclaration_S. cbn [Tok Toks hd]. rewrite Ht.
    rewrite ParseCompoundStatement_S. cbn [Tok Toks hd].
    destruct (TokenKind_eq_dec (Kind t) l_brace); [|contradiction].
    unfold ConsumeBrace at 1. cbn [Toks tl Lang Diags Calls].
    rewrite ParseCompoundStatement_loop_at_eof by reflexivity.
    reflexivity.
  - inversion H as [|? ? Ht Hts]; subst.
    specialize (IH t' D false Hts).
    replace (3 * List.length (t :: t' :: ts))
      with (S (S (S (3 * List.length (t' :: ts)))))
      by (cbn [List.length]; lia).
    rewrite ParseStatementOrDeclaration_S. cbn [Tok Toks hd]. rewrite Ht.
    rewrite ParseCompoundStatement_S. cbn [Tok Toks hd].
    destruct (TokenKind_eq_dec (Kind t) l_brace); [|contradiction].
    unfold ConsumeBrace at 1. cbn [Toks tl Lang Diags Calls].
    rewrite ParseCompoundStatement_loop_S. cbn [Tok Toks hd].
    inversion Hts as [|? ? Ht' _]; subst. rewrite Ht'.
    cbn [isKind negb andb]. unfold isKind.
    destruct (TokenKind_eq_dec l_brace r_brace) as [e0|_]; [discriminate e0|].
    destruct (TokenKind_eq_dec l_brace eof) as [e0|_]; [discriminate e0|].
    cbn [negb andb]. rewrite IH. cbn [bind].
    destruct (3 * List.length (t' :: ts)) as [|m] eqn:Hm;
      [cbn [List.length] in Hm; lia|].
    rewrite ParseCompoundStatement_loop_at_eof by reflexivity.
    cbn [bind Tok Toks hd eof_token Kind].
    destruct (TokenKind_eq_dec eof r_brace) as [e0|_]; [discriminate e0|].
    rewrite returning_Returned. cbn [AfterSwitch].
    unfold Diag. cbn [Lang Toks Diags Calls Tok hd eof_token Loc].
    rewrite <- app_assoc.
    change (List.length (t :: t' :: ts)) with (S (List.length (t' :: ts))).
    rewrite <- repeat_cons. reflexivity.
Qed.

(** X6: on a stream of [n] opening braces and nothing else, the dispatcher
    with call depth [3 * n] opens [n] blocks, reaches the end of the input in
    the innermost one, and reports "expected closing brace" once for every
    block that is open, [n] times in all, each at the end-of-input token; no
    collaborator is called. *)
Theorem unterminated_blocks_are_reported_one_by_one :
  forall (X : Collaborators) (L : LangOptions) (D : list Diagnostic)
         (C : list Call) (b : bool) (braces : list Token),
    braces <> [] ->
    Forall (fun t => Kind t = l_brace) braces ->
    ParseStatementOrDeclaration X (3 * List.length braces) b
      (mkParser L braces D C) =
    Returned
      (mkParser L []
         (D ++ repeat (mkDiag (Loc eof_token) err_expected_rbrace EmptyString)
                 (List.length braces))
         C).
Proof.
  intros X L D C b [|t ts] Hne H; [contradiction Hne; reflexivity|].
  apply unterminated_blocks_aux. exact H.
Qed.

Lemma unterminated_blocks_are_reported_one_by_one_witness :
  ParseStatementOrDeclaration stuck 9 true (start [l_brace; l_brace; l_brace])
  = Returned
      (mkParser (mkLang true false) []
         [mkDiag 0 err_expected_rbrace EmptyString;
          mkDiag 0 err_expected_rbrace EmptyString;
          mkDiag 0 err_expected_rbrace EmptyString] []).
Proof.
  apply (unterminated_blocks_are_reported_one_by_one stuck (mkLang true false)
           [] [] true (located 1 [l_brace; l_brace; l_brace])).
  - discriminate.
  - repeat constructor.
Defined.

(** ** A declaration as the first clause of a for statement *)

(** X7: when the first clause of a for header starts with a declaration
    specifier, the routine delegates the clause to the declaration parser in
    the for context, once, and neither calls the expression parser for it
    nor looks for a semicolon after it; before the delegation it reports the
    C99 extension, at the first token of the declaration, exactly when the
    language is not C99.  It then goes on with the second clause from where
    the declaration parser stopped. *)
Theorem for_declaration_clause :
  forall (X : Collaborators) (fuel : nat) (P : Parser),
    Kind (Tok P) = kw_for ->
    Kind (Tok (ConsumeToken P)) = l_paren ->
    let P0 := ConsumeParen (ConsumeToken P) in
    Kind (Tok P0) <> semi ->
    isDeclarationSpecifier X P0 = true ->
    let e := parseDeclaration X ForContext (Lang P) (Toks P0) in
    let Pd :=
      mkParser (Lang P) (skipn (fst e) (Toks P0))
        ((Diags P ++
          (if C99 (Lang P) then []
           else [mkDiag (Loc (Tok P0)) ext_c99_variable_decl_in_for_loop
                        EmptyString]))
         ++ snd e)
        (Calls P ++ [CallParseDeclaration ForContext]) in
    ParseForStatement X (S fuel) P =
    ForClosingParenAndBody X fuel (Loc (Tok (ConsumeToken P)))
      (ParseForStatement_third X
         (ParseForStatement_second X (Loc (Tok P)) Pd)).
Proof.
  intros X fuel P Hfor Hparen P0 Hs Hd e Pd.
  rewrite (ParseForStatement_from_clauses X fuel P Hfor Hparen).
  fold P0.
  assert (H1 : ParseForStatement_first X (Loc (Tok P)) P0 = Pd).
  { unfold ParseForStatement_first.
    destruct (TokenKind_eq_dec (Kind (Tok P0)) semi); [contradiction|].
    rewrite Hd. unfold Pd, e.
    change (Lang P0) with (Lang P).
    destruct (C99 (Lang P)); cbn [negb].
    - unfold ParseDeclaration, delegate. cbn [Lang Toks Diags Calls P0
        ConsumeParen ConsumeToken]. rewrite app_nil_r. reflexivity.
    - unfold ParseDeclaration, delegate, Diag. cbn [Lang Toks Diags Calls P0
        ConsumeParen ConsumeToken]. reflexivity. }
  rewrite H1. reflexivity.
Qed.

Lemma for_declaration_clause_witness :
  ParseForStatement sample 2
    (mkParser (mkLang false false)
       (located 1 [kw_for; l_paren; kw_int; identifier; semi; semi; r_paren;
                   semi; kw_break]) [] []) =
  Returned
    (mkParser (mkLang false false) (located 9 [kw_break])
       [mkDiag 3 ext_c99_variable_decl_in_for_loop EmptyString]
       [CallParseDeclaration ForContext]).
Proof.
  rewrite (for_declaration_clause sample 1
             (mkParser (mkLang false false)
                (located 1 [kw_for; l_paren; kw_int; identifier; semi; semi;
                            r_paren; semi; kw_break]) [] [])).
  - reflexivity.
  - reflexivity.
  - reflexivity.
  - simpl. discriminate.
  - reflexivity.
Defined.

(** ** The else of nested if statements *)

(** X8: an [else] belongs to the nearest [if].  When the body of an [if] is
    itself an [if] whose own statement is followed by [else], the inner
    routine consumes that [else] and parses the statement after it; the
    outer routine takes up only where the inner one stopped, and parses an
    else branch of its own only if one more [else] is there. *)
Theorem else_belongs_to_the_nearest_if :
  forall (X : Collaborators) (fuel : nat) (P Pthen Pelse : Parser),
    Kind (Tok P) = kw_if ->
    Kind (Tok (ConsumeToken P)) = l_paren ->
    let Q := ParseParenExpression X (ConsumeToken P) in
    Kind (Tok Q) = kw_if ->
    Kind (Tok (ConsumeToken Q)) = l_paren ->
    ParseStatement X fuel (ParseParenExpression X (ConsumeToken Q))
      = Returned Pthen ->
    Kind (Tok Pthen) = kw_else ->
    ParseStatement X fuel (ConsumeToken Pthen) = Returned Pelse ->
    ParseIfStatement X (S fuel) Q = Returned Pelse /\
    ParseIfStatement X (S (S (S fuel))) P =
    (if TokenKind_eq_dec (Kind (Tok Pelse)) kw_else
     then ParseStatement X (S (S fuel)) (ConsumeToken Pelse)
     else Returned Pelse).
Proof.
  intros X fuel P Pthen Pelse Hif Hparen Q HQif HQparen Hthen Helse Hbranch.
  unfold ParseStatement in *.
  assert (Hinner : ParseIfStatement X (S fuel) Q = Returned Pelse).
  { rewrite ParseIfStatement_S.
    destruct (TokenKind_eq_dec (Kind (Tok Q)) kw_if); [|contradiction].
    destruct (TokenKind_eq_dec (Kind (Tok (ConsumeToken Q))) l_paren);
      [|contradiction].
    rewrite Hthen. cbn [bind].
    destruct (TokenKind_eq_dec (Kind (Tok Pthen)) kw_else); [|contradiction].
    exact Hbranch. }
  split; [exact Hinner|].
  rewrite ParseIfStatement_S.
  destruct (TokenKind_eq_dec (Kind (Tok P)) kw_if); [|contradiction].
  destruct (TokenKind_eq_dec (Kind (Tok (ConsumeToken P))) l_paren);
    [|contradiction].
  fold Q. rewrite ParseStatementOrDeclaration_S, HQif, Hinner.
  rewrite returning_Returned. reflexivity.
Qed.

Lemma else_belongs_to_the_nearest_if_witness :
  ParseIfStatement sample 4
    (start [kw_if; l_paren; identifier; r_paren;
            kw_if; l_paren; identifier; r_paren; semi; kw_else; kw_break;
            semi; kw_continue; semi]) =
  Returned
    (mkParser (mkLang true false) (located 13 [kw_continue; semi]) []
       [CallParseParenExpression; CallParseParenExpression]).
Proof.
  destruct
    (else_belongs_to_the_nearest_if sample 1
       (start [kw_if; l_paren; identifier; r_paren;
               kw_if; l_paren; identifier; r_paren; semi; kw_else; kw_break;
               semi; kw_continue; semi])
       (mkParser (mkLang true false)
          (located 10 [kw_else; kw_break; semi; kw_continue; semi]) []
          [CallParseParenExpression; CallParseParenExpression])
       (mkParser (mkLang true false) (located 13 [kw_continue; semi]) []
          [CallParseParenExpression; CallParseParenExpression])
       eq_refl eq_refl eq_refl eq_refl eq_refl eq_refl eq_refl) as [_ H].
  rewrite H. reflexivity.
Defined.

(** ** What was reported before does not matter *)

Create Rewrite HintDb history.

Section History.

Variable X : Collaborators.
Variable D : list Diagnostic.
Variable C : list Call.

Lemma Tok_WithHistory (P : Parser) : Tok (WithHistory D C P) = Tok P.
Proof. reflexivity. Qed.

Lemma Lang_WithHistory (P : Parser) : Lang (WithHistory D C P) = Lang P.
Proof. reflexivity. Qed.

Lemma ConsumeToken_WithHistory (P : Parser) :
  ConsumeToken (WithHistory D C P) = WithHistory D C (ConsumeToken P).
Proof. reflexivity. Qed.

Lemma ConsumeBrace_WithHistory (P : Parser) :
  ConsumeBrace (WithHistory D C P) = WithHistory D C (ConsumeBrace P).
Proof. reflexivity. Qed.

Lemma ConsumeParen_WithHistory (P : Parser) :
  ConsumeParen (WithHistory D C P) = WithHistory D C (ConsumeParen P).
Proof. reflexivity. Qed.

Lemma Diag_WithHistory (L : SourceLocation) (ID : DiagID) (M : string)
    (P : Parser) :
  Diag L ID M (WithHistory D C P) = WithHistory D C (Diag L ID M P).
Proof.
  unfold Diag, WithHistory. cbn [Lang Toks Diags Calls].
  rewrite app_assoc. reflexivity.
Qed.

Lemma delegate_WithHistory (c : Call) (e : Effect) (P : Parser) :
  delegate c e (WithHistory D C P) = WithHistory D C (delegate c e P).
Proof.
  unfold delegate, WithHistory. cbn [Lang Toks Diags Calls].
  rewrite !app_assoc. reflexivity.
Qed.

Lemma ParseExpression_WithHistory (P : Parser) :
  ParseExpression X (WithHistory D C P) =
  WithHistory D C (ParseExpression X P).
Proof. apply delegate_WithHistory. Qed.

Lemma ParseParenExpression_WithHistory (P : Parser) :
  ParseParenExpression X (WithHistory D C P) =
  WithHistory D C (ParseParenExpression X P).
Proof. apply delegate_WithHistory. Qed.

Lemma ParseDeclaration_WithHistory (Ctx : DeclaratorContext) (P : Parser) :
  ParseDeclaration X Ctx (WithHistory D C P) =
  WithHistory D C (ParseDeclaration X Ctx P).
Proof. apply delegate_WithHistory. Qed.

Lemma SkipUntil_WithHistory (T : TokenKind) (P : Parser) :
  SkipUntil X T (WithHistory D C P) = WithHistory D C (SkipUntil X T P).
Proof. apply delegate_WithHistory. Qed.

Lemma isDeclarationSpecifier_WithHistory (P : Parser) :
  isDeclarationSpecifier X (WithHistory D C P) = isDeclarationSpecifier X P.
Proof. reflexivity. Qed.

#[local] Hint Rewrite Tok_WithHistory Lang_WithHistory
  ConsumeToken_WithHistory Diag_WithHistory
  ParseExpression_WithHistory ParseParenExpression_WithHistory
  ParseDeclaration_WithHistory SkipUntil_WithHistory
  isDeclarationSpecifier_WithHistory : history.

(** The three consume operations are one operation on the state. *)
Ltac history :=
  change ConsumeBrace with ConsumeToken;
  change ConsumeParen with ConsumeToken;
  autorewrite with history.

Lemma ParseForStatement_first_WithHistory (ForLoc : SourceLocation)
    (P : Parser) :
  ParseForStatement_first X ForLoc (WithHistory D C P) =
  WithHistory D C (ParseForStatement_first X ForLoc P).
Proof.
  unfold ParseForStatement_first. history.
  destruct (TokenKind_eq_dec (Kind (Tok P)) semi); [reflexivity|].
  destruct (isDeclarationSpecifier X P).
  - destruct (negb (C99 (Lang P))); history; reflexivity.
  - destruct (TokenKind_eq_dec (Kind (Tok (ParseExpression X P))) semi);
      history; reflexivity.
Qed.

Lemma ParseForStatement_second_WithHistory (ForLoc : SourceLocation)
    (P : Parser) :
  ParseForStatement_second X ForLoc (WithHistory D C P) =
  WithHistory D C (ParseForStatement_second X ForLoc P).
Proof.
  unfold ParseForStatement_second. history.
  destruct (TokenKind_eq_dec (Kind (Tok P)) semi); cbv zeta;
    history.
  - destruct (TokenKind_eq_dec (Kind (Tok P)) semi);
      history; reflexivity.
  - destruct (TokenKind_eq_dec (Kind (Tok (ParseExpression X P))) semi);
      history; reflexivity.
Qed.

Lemma ParseForStatement_third_WithHistory (P : Parser) :
  ParseForStatement_third X (WithHistory D C P) =
  WithHistory D C (ParseForStatement_third X P).
Proof.
  unfold ParseForStatement_third. history.
  destruct (TokenKind_eq_dec (Kind (Tok P)) r_paren);
    history; reflexivity.
Qed.

#[local] Hint Rewrite ParseForStatement_first_WithHistory
  ParseForStatement_second_WithHistory ParseForStatement_third_WithHistory
  : history.

Lemma ParseGotoStatement_WithHistory (P : Parser) :
  ParseGotoStatement X (WithHistory D C P) =
  OutcomeWithHistory D C (ParseGotoStatement X P).
Proof.
  unfold ParseGotoStatement. history.
  destruct (TokenKind_eq_dec (Kind (Tok P)) kw_goto); [|reflexivity].
  cbv zeta. history.
  destruct (TokenKind_eq_dec (Kind (Tok (ConsumeToken P))) identifier);
    [reflexivity|].
  destruct (isKind (Kind (Tok (ConsumeToken P))) star
            && negb (NoExtensions (Lang (ConsumeToken P))));
    history; reflexivity.
Qed.

Lemma ParseReturnStatement_WithHistory (P : Parser) :
  ParseReturnStatement X (WithHistory D C P) =
  OutcomeWithHistory D C (ParseReturnStatement X P).
Proof.
  unfold ParseReturnStatement. history.
  destruct (TokenKind_eq_dec (Kind (Tok P)) kw_return); [|reflexivity].
  cbv zeta. history.
  destruct (TokenKind_eq_dec (Kind (Tok (ConsumeToken P))) semi);
    history; reflexivity.
Qed.

Lemma AfterSwitch_ExitReturn_WithHistory (P : Parser) :
  AfterSwitch X (ExitReturn (WithHistory D C P)) =
  WithHistory D C (AfterSwitch X (ExitReturn P)).
Proof. reflexivity. Qed.

Lemma AfterSwitch_ExitBreak_WithHistory (SemiError : string) (P : Parser) :
  AfterSwitch X (ExitBreak SemiError (WithHistory D C P)) =
  WithHistory D C (AfterSwitch X (ExitBreak SemiError P)).
Proof.
  cbn [AfterSwitch]. history.
  destruct (TokenKind_eq_dec (Kind (Tok P)) semi);
    history; reflexivity.
Qed.

Lemma bind_WithHistory (o : Outcome) (k k' : Parser -> Outcome) :
  (forall P, k' (WithHistory D C P) = OutcomeWithHistory D C (k P)) ->
  bind (OutcomeWithHistory D C o) k' = OutcomeWithHistory D C (bind o k).
Proof. intros H. destruct o as [P| |]; cbn; [apply H|reflexivity..]. Qed.

Lemma returning_WithHistory (o : Outcome) (k : Parser -> SwitchExit) :
  (forall P, AfterSwitch X (k (WithHistory D C P)) =
             WithHistory D C (AfterSwitch X (k P))) ->
  returning X (OutcomeWithHistory D C o) k =
  OutcomeWithHistory D C (returning X o k).
Proof.
  intros H. unfold returning. apply bind_WithHistory.
  intros P. cbn [OutcomeWithHistory]. rewrite H. reflexivity.
Qed.

Lemma routines_WithHistory (n : nat) :
  (forall b P,
     ParseStatementOrDeclaration X n b (WithHistory D C P) =
     OutcomeWithHistory D C (ParseStatementOrDeclaration X n b P)) /\
  (forall P,
     ParseCompoundStatement X n (WithHistory D C P) =
     OutcomeWithHistory D C (ParseCompoundStatement X n P)) /\
  (forall P,
     ParseCompoundStatement_loop X n (WithHistory D C P) =
     OutcomeWithHistory D C (ParseCompoundStatement_loop X n P)) /\
  (forall P,
     ParseIfStatement X n (WithHistory D C P) =
     OutcomeWithHistory D C (ParseIfStatement X n P)) /\
  (forall P,
     ParseSwitchStatement X n (WithHistory D C P) =
     OutcomeWithHistory D C (ParseSwitchStatement X n P)) /\
  (forall P,
     ParseWhileStatement X n (WithHistory D C P) =
     OutcomeWithHistory D C (ParseWhileStatement X n P)) /\
  (forall P,
     ParseDoStatement X n (WithHistory D C P) =
     OutcomeWithHistory D C (ParseDoStatement X n P)) /\
  (forall P,
     ParseForStatement X n (WithHistory D C P) =
     OutcomeWithHistory D C (ParseForStatement X n P)).
Proof.
  induction n as [|n IH].
  - refine (conj _ (conj _ (conj _ (conj _ (conj _ (conj _ (conj _ _)))))));
      intros; reflexivity.
  - destruct IH as (IHd & IHc & IHl & IHi & IHs & IHw & IHo & IHf).
    refine (conj _ (conj _ (conj _ (conj _ (conj _ (conj _ (conj _ _)))))));
      intros.
    + rewrite !ParseStatementOrDeclaration_S. history.
      destruct (Kind (Tok P));
        rewrite ?IHc, ?IHi, ?IHs, ?IHw, ?IHo, ?IHf,
          ?ParseGotoStatement_WithHistory, ?ParseReturnStatement_WithHistory;
        first
          [ apply returning_WithHistory; intros;
            first [ apply AfterSwitch_ExitReturn_WithHistory
                  | apply AfterSwitch_ExitBreak_WithHistory ]
          | rewrite !returning_Returned; cbn [OutcomeWithHistory];
            first [ rewrite AfterSwitch_ExitBreak_WithHistory; reflexivity
                  | reflexivity ] ].
    + rewrite !ParseCompoundStatement_S. history.
      destruct (TokenKind_eq_dec (Kind (Tok P)) l_brace); [|reflexivity].
      rewrite IHl. apply bind_WithHistory. intros P1.
      history.
      destruct (TokenKind_eq_dec (Kind (Tok P1)) r_brace);
        history; reflexivity.
    + rewrite !ParseCompoundStatement_loop_S. history.
      destruct (negb (isKind (Kind (Tok P)) r_brace)
                && negb (isKind (Kind (Tok P)) eof)); [|reflexivity].
      rewrite IHd. apply bind_WithHistory. intros P1. apply IHl.
    + rewrite !ParseIfStatement_S. history.
      destruct (TokenKind_eq_dec (Kind (Tok P)) kw_if); [|reflexivity].
      destruct (TokenKind_eq_dec (Kind (Tok (ConsumeToken P))) l_paren);
        [|reflexivity].
      rewrite IHd. apply bind_WithHistory. intros P1.
      history.
      destruct (TokenKind_eq_dec (Kind (Tok P1)) kw_else);
        [apply IHd|reflexivity].
    + rewrite !ParseSwitchStatement_S. history.
      destruct (TokenKind_eq_dec (Kind (Tok P)) kw_switch); [|reflexivity].
      destruct (TokenKind_eq_dec (Kind (Tok (ConsumeToken P))) l_paren);
        [apply IHd|reflexivity].
    + rewrite !ParseWhileStatement_S. history.
      destruct (TokenKind_eq_dec (Kind (Tok P)) kw_while); [|reflexivity].
      destruct (TokenKind_eq_dec (Kind (Tok (ConsumeToken P))) l_paren);
        [apply IHd|reflexivity].
    + rewrite !ParseDoStatement_S. history.
      destruct (TokenKind_eq_dec (Kind (Tok P)) kw_do); [|reflexivity].
      rewrite IHd. apply bind_WithHistory. intros P1.
      history.
      destruct (TokenKind_eq_dec (Kind (Tok P1)) kw_while); [|reflexivity].
      destruct (TokenKind_eq_dec (Kind (Tok (ConsumeToken P1))) l_paren);
        reflexivity.
    + rewrite !ParseForStatement_S. history.
      destruct (TokenKind_eq_dec (Kind (Tok P)) kw_for); [|reflexivity].
      cbv zeta. history.
      destruct (TokenKind_eq_dec (Kind (Tok (ConsumeToken P))) l_paren);
        [|reflexivity].
      set (P5 := ParseForStatement_third X _). clearbody P5.
      destruct (TokenKind_eq_dec (Kind (Tok P5)) r_paren);
        [apply IHd|reflexivity].
Qed.

End History.

(** X9: the diagnostics and the calls that are on record when the
    dispatcher is called have no influence on what it does: started with a
    record in front, it ends as it ends without, with that record in front of
    the result.  The routines append to the record and never read it. *)
Theorem dispatcher_ignores_the_record :
  forall (X : Collaborators) (D : list Diagnostic) (C : list Call)
         (fuel : nat) (b : bool) (P : Parser),
    ParseStatementOrDeclaration X fuel b (WithHistory D C P) =
    OutcomeWithHistory D C (ParseStatementOrDeclaration X fuel b P).
Proof.
  intros X D C fuel b P.
  exact (proj1 (routines_WithHistory X D C fuel) b P).
Qed.

(** ** The statements the parser accepts *)

Lemma skipn_length_app (A : Type) (l r : list A) :
  skipn (List.length l) (l ++ r) = r.
Proof. induction l as [|a l IH]; [reflexivity|exact IH]. Qed.

Section Grammar.

Variable X : Collaborators.
Variable L : LangOptions.

Lemma ParenExpression_head (c : list Token) :
  ParenExpression X L c ->
  exists t c', c = t :: c' /\ Kind t = l_paren.
Proof.
  intros [H _]. destruct c as [|t c']; [discriminate H|].
  exists t, c'. split; [reflexivity|exact H].
Qed.

Lemma Expression_head (d : TokenKind) (e : list Token) :
  Expression X L d e ->
  exists t e', e = t :: e' /\ Kind t <> d.
Proof.
  intros (H & Hne & _). destruct e as [|t e']; [contradiction Hne; reflexivity|].
  exists t, e'. split; [reflexivity|exact H].
Qed.

Lemma Statement_head (o : bool) (s : list Token) :
  Statement X L o s ->
  exists t s', s = t :: s' /\ starts_statement (Kind t) = true.
Proof.
  intros H. destruct H;
    match goal with
    | Hk : Kind ?t = _ |- exists _ _, ?t :: _ = _ /\ _ =>
        eexists; eexists; split; [reflexivity|rewrite Hk; reflexivity]
    end.
Qed.

Lemma ParseParenExpression_consumes (c r : list Token)
    (D : list Diagnostic) (C : list Call) :
  ParenExpression X L c ->
  ParseParenExpression X (mkParser L (c ++ r) D C) =
  mkParser L r D (C ++ [CallParseParenExpression]).
Proof.
  intros [_ H]. unfold ParseParenExpression, delegate.
  cbn [Lang Toks Diags Calls]. rewrite H. cbn [fst snd].
  rewrite skipn_length_app, app_nil_r. reflexivity.
Qed.

Lemma ParseExpression_consumes (d : TokenKind) (e : list Token) (t : Token)
    (r : list Token) (D : list Diagnostic) (C : list Call) :
  Expression X L d e -> Kind t = d ->
  ParseExpression X (mkParser L (e ++ t :: r) D C) =
  mkParser L (t :: r) D (C ++ [CallParseExpression]).
Proof.
  intros (_ & _ & H) Ht. unfold ParseExpression, delegate.
  cbn [Lang Toks Diags Calls]. rewrite (H t r Ht). cbn [fst snd].
  rewrite skipn_length_app, app_nil_r. reflexivity.
Qed.

(** The clauses of the for header. *)

Lemma ParseForStatement_first_accepts (i r : list Token)
    (ForLoc : SourceLocation) (D : list Diagnostic) (C : list Call) :
  ForInit X L i ->
  exists C',
    ParseForStatement_first X ForLoc (mkParser L (i ++ r) D C) =
    mkParser L r D C'.
Proof.
  intros H. destruct H as [t Ht|e t He Hd Ht|d Hs Hne Hd Hc Hp].
  - exists C. apply ParseForStatement_first_semi. exact Ht.
  - destruct (Expression_head semi e He) as (t0 & e' & -> & Ht0).
    exists (C ++ [CallParseExpression]).
    rewrite <- app_assoc. cbn [app].
    rewrite ParseForStatement_first_expression;
      [|exact Ht0|exact Hd].
    change (t0 :: e' ++ t :: r) with ((t0 :: e') ++ t :: r).
    rewrite (ParseExpression_consumes semi (t0 :: e') t r D C He Ht).
    cbn [Tok Toks hd].
    destruct (TokenKind_eq_dec (Kind t) semi); [reflexivity|contradiction].
  - destruct d as [|t0 d']; [contradiction Hne; reflexivity|].
    exists (C ++ [CallParseDeclaration ForContext]).
    unfold ParseForStatement_first. cbn [app Tok Toks hd].
    cbn [hd] in Hs, Hd.
    destruct (TokenKind_eq_dec (Kind t0) semi); [contradiction|].
    unfold isDeclarationSpecifier. cbn [Tok Toks hd]. rewrite Hd.
    cbn [Lang]. rewrite Hc. cbn [negb].
    unfold ParseDeclaration, delegate. cbn [Lang Toks Diags Calls].
    change (t0 :: d' ++ r) with ((t0 :: d') ++ r).
    rewrite Hp. cbn [fst snd].
    rewrite skipn_length_app, app_nil_r. reflexivity.
Qed.

Lemma ParseForStatement_second_accepts (e : list Token) (t : Token)
    (r : list Token) (ForLoc : SourceLocation) (D : list Diagnostic)
    (C : list Call) :
  OptExpression X L semi e -> Kind t = semi ->
  exists C',
    ParseForStatement_second X ForLoc (mkParser L (e ++ t :: r) D C) =
    mkParser L r D C'.
Proof.
  intros H Ht. destruct H as [|e He].
  - exists C. apply ParseForStatement_second_semi. exact Ht.
  - destruct (Expression_head semi e He) as (t0 & e' & -> & Ht0).
    exists (C ++ [CallParseExpression]).
    rewrite ParseForStatement_second_expression by exact Ht0.
    rewrite (ParseExpression_consumes semi (t0 :: e') t r D C He Ht).
    cbn [Tok Toks hd].
    destruct (TokenKind_eq_dec (Kind t) semi); [reflexivity|contradiction].
Qed.

Lemma ParseForStatement_third_accepts (e : list Token) (t : Token)
    (r : list Token) (D : list Diagnostic) (C : list Call) :
  OptExpression X L r_paren e -> Kind t = r_paren ->
  exists C',
    ParseForStatement_third X (mkParser L (e ++ t :: r) D C) =
    mkParser L (t :: r) D C'.
Proof.
  intros H Ht. destruct H as [|e He].
  - exists C. apply ParseForStatement_third_r_paren. exact Ht.
  - destruct (Expression_head r_paren e He) as (t0 & e' & -> & Ht0).
    exists (C ++ [CallParseExpression]).
    rewrite ParseForStatement_third_expression by exact Ht0.
    exact (ParseExpression_consumes r_paren (t0 :: e') t r D C He Ht).
Qed.

Lemma ParseReturnStatement_accepts (t tsemi : Token) (e r : list Token)
    (D : list Diagnostic) (C : list Call) :
  Kind t = kw_return -> OptExpression X L semi e -> Kind tsemi = semi ->
  exists C',
    ParseReturnStatement X (mkParser L (t :: e ++ tsemi :: r) D C) =
    Returned (mkParser L (tsemi :: r) D C').
Proof.
  intros Ht He Hs. unfold ParseReturnStatement. cbn [Tok Toks hd].
  destruct (TokenKind_eq_dec (Kind t) kw_return); [|contradiction].
  cbv zeta. unfold ConsumeToken. cbn [Toks tl Lang Diags Calls].
  destruct He as [|e He].
  - exists C. cbn [app Tok Toks hd].
    destruct (TokenKind_eq_dec (Kind tsemi) semi); [reflexivity|contradiction].
  - destruct (Expression_head semi e He) as (t0 & e' & -> & Ht0).
    exists (C ++ [CallParseExpression]). cbn [app Tok Toks hd].
    destruct (TokenKind_eq_dec (Kind t0) semi); [contradiction|].
    change (t0 :: e' ++ tsemi :: r) with ((t0 :: e') ++ tsemi :: r).
    rewrite (ParseExpression_consumes semi (t0 :: e') tsemi r D C He Hs).
    reflexivity.
Qed.

End Grammar.

Section Acceptance.

Variable X : Collaborators.
Variable L : LangOptions.

Lemma ConsumeToken_cons (t : Token) (ts : list Token)
    (D : list Diagnostic) (C : list Call) :
  ConsumeToken (mkParser L (t :: ts) D C) = mkParser L ts D C.
Proof. reflexivity. Qed.

Lemma ConsumeParen_cons (t : Token) (ts : list Token)
    (D : list Diagnostic) (C : list Call) :
  ConsumeParen (mkParser L (t :: ts) D C) = mkParser L ts D C.
Proof. reflexivity. Qed.

Lemma Kind_Tok_ParenExpression (c r : list Token) (D : list Diagnostic)
    (C : list Call) :
  ParenExpression X L c -> Kind (Tok (mkParser L (c ++ r) D C)) = l_paren.
Proof.
  intros H. destruct (ParenExpression_head X L c H) as (t & c' & -> & Ht).
  exact Ht.
Qed.

Lemma Statement_Tok (o : bool) (s r : list Token) (D : list Diagnostic)
    (C : list Call) :
  Statement X L o s ->
  starts_statement (Kind (Tok (mkParser L (s ++ r) D C))) = true.
Proof.
  intros H. destruct (Statement_head X L o s H) as (t & s' & -> & Ht).
  exact Ht.
Qed.

Lemma loop_condition_at_statement (k : TokenKind) :
  starts_statement k = true ->
  negb (isKind k r_brace) && negb (isKind k eof) = true.
Proof. destruct k; intros H; try discriminate H; reflexivity. Qed.

Lemma BlockItems_no_else (items rest : list Token) :
  BlockItems X L items ->
  Kind (hd eof_token rest) = r_brace ->
  Kind (hd eof_token (items ++ rest)) <> kw_else.
Proof.
  intros H Hr. destruct H as [|s items o Hs Hitems].
  - cbn [app]. rewrite Hr. discriminate.
  - destruct (Statement_head X L o s Hs) as (t & s' & -> & Ht).
    cbn [app hd]. intros He. rewrite He in Ht. discriminate Ht.
Qed.

Ltac max_fuel Hf :=
  match type of Hf with
  | ParseStatementOrDeclaration _ ?f ?b ?P = Returned ?P' =>
      match goal with
      | |- context [ParseStatementOrDeclaration _ (Nat.max f ?g) b P] =>
          rewrite (ParseStatementOrDeclaration_monotone X b f (Nat.max f g)
                     P P' (Nat.le_max_l f g) Hf)
      | |- context [ParseStatementOrDeclaration _ (Nat.max ?g f) b P] =>
          rewrite (ParseStatementOrDeclaration_monotone X b f (Nat.max g f)
                     P P' (Nat.le_max_r g f) Hf)
      end
  end.

Lemma statements_and_blocks_accepted :
  (forall (o : bool) (s : list Token),
     Statement X L o s ->
     forall (rest : list Token) (D : list Diagnostic) (C : list Call)
            (b : bool),
       NoDanglingElse o rest ->
       exists (fuel : nat) (C' : list Call),
         ParseStatementOrDeclaration X fuel b (mkParser L (s ++ rest) D C) =
         Returned (mkParser L rest D C'))
  /\
  (forall items : list Token,
     BlockItems X L items ->
     forall (rest : list Token) (D : list Diagnostic) (C : list Call),
       Kind (hd eof_token rest) = r_brace ->
       exists (fuel : nat) (C' : list Call),
         ParseCompoundStatement_loop X fuel (mkParser L (items ++ rest) D C) =
         Returned (mkParser L rest D C')).
Proof.
  apply Statement_mutual_ind.
  - (* ; *)
    intros t Ht rest D C b _. exists 1, C.
    rewrite ParseStatementOrDeclaration_S. cbn [app Tok Toks hd].
    rewrite Ht. reflexivity.
  - (* { block-item-list } *)
    intros lb rb items Hlb _ IH Hrb rest D C b _.
    destruct (IH (rb :: rest) D C Hrb) as (f & C' & Hf).
    assert (E : (lb :: items ++ [rb]) ++ rest = lb :: items ++ rb :: rest)
      by (cbn [app]; rewrite <- app_assoc; reflexivity).
    exists (S (S f)), C'. rewrite E, ParseStatementOrDeclaration_S.
    cbn [Tok Toks hd]. rewrite Hlb, ParseCompoundStatement_S.
    cbn [Tok Toks hd].
    destruct (TokenKind_eq_dec (Kind lb) l_brace); [|contradiction].
    change (ConsumeBrace (mkParser L (lb :: items ++ rb :: rest) D C))
      with (mkParser L (items ++ rb :: rest) D C).
    rewrite Hf. cbn [bind Tok Toks hd].
    destruct (TokenKind_eq_dec (Kind rb) r_brace); [|contradiction].
    reflexivity.
  - (* if ( expression ) statement *)
    intros t c s o Ht Hc _ IH rest D C b Hnd.
    destruct (IH rest D (C ++ [CallParseParenExpression]) true)
      as (f & C' & Hf); [intros _; apply Hnd; reflexivity|].
    assert (E : (t :: c ++ s) ++ rest = t :: c ++ (s ++ rest))
      by (cbn [app]; rewrite <- app_assoc; reflexivity).
    exists (S (S f)), C'. rewrite E, ParseStatementOrDeclaration_S.
    cbn [Tok Toks hd]. rewrite Ht, ParseIfStatement_S.
    cbn [Tok Toks hd].
    destruct (TokenKind_eq_dec (Kind t) kw_if); [|contradiction].
    rewrite ConsumeToken_cons, Kind_Tok_ParenExpression by exact Hc.
    destruct (TokenKind_eq_dec l_paren l_paren) as [_|n]; [|congruence].
    rewrite ParseParenExpression_consumes by exact Hc.
    rewrite Hf. cbn [bind Tok Toks].
    match goal with
    | |- context [TokenKind_eq_dec ?a kw_else] =>
        destruct (TokenKind_eq_dec a kw_else) as [e0|_]
    end; [exfalso; exact (Hnd eq_refl e0)|].
    reflexivity.
  - (* if ( expression ) statement else statement *)
    intros t te c s1 s2 o Ht Hc _ IH1 Hte _ IH2 rest D C b Hnd.
    destruct (IH1 (te :: s2 ++ rest) D (C ++ [CallParseParenExpression]) true)
      as (f1 & C1 & Hf1); [intros H; discriminate H|].
    destruct (IH2 rest D C1 true Hnd) as (f2 & C2 & Hf2).
    assert (E : (t :: c ++ s1 ++ te :: s2) ++ rest =
                t :: c ++ (s1 ++ te :: s2 ++ rest))
      by (cbn [app]; rewrite <- !app_assoc; reflexivity).
    exists (S (S (Nat.max f1 f2))), C2.
    rewrite E, ParseStatementOrDeclaration_S.
    cbn [Tok Toks hd]. rewrite Ht, ParseIfStatement_S.
    cbn [Tok Toks hd].
    destruct (TokenKind_eq_dec (Kind t) kw_if); [|contradiction].
    rewrite ConsumeToken_cons, Kind_Tok_ParenExpression by exact Hc.
    destruct (TokenKind_eq_dec l_paren l_paren) as [_|n]; [|congruence].
    rewrite ParseParenExpression_consumes by exact Hc.
    max_fuel Hf1. cbn [bind Tok Toks hd].
    destruct (TokenKind_eq_dec (Kind te) kw_else); [|contradiction].
    rewrite ConsumeToken_cons. max_fuel Hf2. reflexivity.
  - (* switch ( expression ) statement *)
    intros t c s o Ht Hc _ IH rest D C b Hnd.
    destruct (IH rest D (C ++ [CallParseParenExpression]) true Hnd)
      as (f & C' & Hf).
    assert (E : (t :: c ++ s) ++ rest = t :: c ++ (s ++ rest))
      by (cbn [app]; rewrite <- app_assoc; reflexivity).
    exists (S (S f)), C'. rewrite E, ParseStatementOrDeclaration_S.
    cbn [Tok Toks hd]. rewrite Ht, ParseSwitchStatement_S.
    cbn [Tok Toks hd].
    destruct (TokenKind_eq_dec (Kind t) kw_switch); [|contradiction].
    rewrite ConsumeToken_cons, Kind_Tok_ParenExpression by exact Hc.
    destruct (TokenKind_eq_dec l_paren l_paren) as [_|n]; [|congruence].
    rewrite ParseParenExpression_consumes by exact Hc.
    rewrite Hf. reflexivity.
  - (* while ( expression ) statement *)
    intros t c s o Ht Hc _ IH rest D C b Hnd.
    destruct (IH rest D (C ++ [CallParseParenExpression]) true Hnd)
      as (f & C' & Hf).
    assert (E : (t :: c ++ s) ++ rest = t :: c ++ (s ++ rest))
      by (cbn [app]; rewrite <- app_assoc; reflexivity).
    exists (S (S f)), C'. rewrite E, ParseStatementOrDeclaration_S.
    cbn [Tok Toks hd]. rewrite Ht, ParseWhileStatement_S.
    cbn [Tok Toks hd].
    destruct (TokenKind_eq_dec (Kind t) kw_while); [|contradiction].
    rewrite ConsumeToken_cons, Kind_Tok_ParenExpression by exact Hc.
    destruct (TokenKind_eq_dec l_paren l_paren) as [_|n]; [|congruence].
    rewrite ParseParenExpression_consumes by exact Hc.
    rewrite Hf. reflexivity.
  - (* do statement while ( expression ) ; *)
    intros t tw tsemi s c o Ht _ IH Htw Hc Hsemi rest D C b _.
    destruct (IH (tw :: c ++ tsemi :: rest) D C true) as (f & C1 & Hf).
    { intros _. cbn [hd]. rewrite Htw. discriminate. }
    assert (E : (t :: s ++ tw :: c ++ [tsemi]) ++ rest =
                t :: s ++ tw :: c ++ tsemi :: rest)
      by (cbn [app]; rewrite <- !app_assoc; cbn [app];
          rewrite <- app_assoc; reflexivity).
    exists (S (S f)), (C1 ++ [CallParseParenExpression]).
    rewrite E, ParseStatementOrDeclaration_S.
    cbn [Tok Toks hd]. rewrite Ht, ParseDoStatement_S.
    cbn [Tok Toks hd].
    destruct (TokenKind_eq_dec (Kind t) kw_do); [|contradiction].
    rewrite ConsumeToken_cons, Hf. cbn [bind Tok Toks hd].
    destruct (TokenKind_eq_dec (Kind tw) kw_while); [|contradiction].
    rewrite ConsumeToken_cons, Kind_Tok_ParenExpression by exact Hc.
    destruct (TokenKind_eq_dec l_paren l_paren) as [_|n]; [|congruence].
    rewrite ParseParenExpression_consumes by exact Hc.
    rewrite returning_Returned, AfterSwitch_semi by exact Hsemi.
    reflexivity.
  - (* for ( clause ; clause ; clause ) statement *)
    intros t lp tsemi rp i e2 e3 s o Ht Hlp Hi He2 Hsemi He3 Hrp _ IH
           rest D C b Hnd.
    destruct (ParseForStatement_first_accepts X L i
                (e2 ++ tsemi :: e3 ++ rp :: s ++ rest) (Loc t) D C Hi)
      as (C1 & H1).
    destruct (ParseForStatement_second_accepts X L e2 tsemi
                (e3 ++ rp :: s ++ rest) (Loc t) D C1 He2 Hsemi)
      as (C2 & H2).
    destruct (ParseForStatement_third_accepts X L e3 rp (s ++ rest) D C2
                He3 Hrp) as (C3 & H3).
    destruct (IH rest D C3 true Hnd) as (f & C4 & Hf).
    assert (E : (t :: lp :: i ++ e2 ++ tsemi :: e3 ++ rp :: s) ++ rest =
                t :: lp :: i ++ e2 ++ tsemi :: e3 ++ rp :: s ++ rest)
      by (cbn [app]; rewrite <- !app_assoc; cbn [app];
          rewrite <- !app_assoc; reflexivity).
    exists (S (S f)), C4. rewrite E, ParseStatementOrDeclaration_S.
    cbn [Tok Toks hd]. rewrite Ht, ParseForStatement_S.
    cbn [Tok Toks hd].
    destruct (TokenKind_eq_dec (Kind t) kw_for); [|contradiction].
    cbv zeta. rewrite !ConsumeToken_cons. cbn [Tok Toks hd].
    destruct (TokenKind_eq_dec (Kind lp) l_paren); [|contradiction].
    rewrite ?ConsumeParen_cons, !H1, !H2, !H3. cbn [Tok Toks hd].
    destruct (TokenKind_eq_dec (Kind rp) r_paren); [|contradiction].
    rewrite ?ConsumeParen_cons, ?ConsumeToken_cons, Hf. reflexivity.
  - (* goto identifier ; *)
    intros t tid tsemi Ht Hid Hsemi rest D C b _. exists 1, C.
    rewrite ParseStatementOrDeclaration_S. cbn [app Tok Toks hd].
    rewrite Ht. unfold ParseGotoStatement. cbn [Tok Toks hd].
    destruct (TokenKind_eq_dec (Kind t) kw_goto); [|contradiction].
    cbv zeta. rewrite !ConsumeToken_cons. cbn [Tok Toks hd].
    destruct (TokenKind_eq_dec (Kind tid) identifier); [|contradiction].
    rewrite ?ConsumeToken_cons, returning_Returned,
      AfterSwitch_semi by exact Hsemi.
    reflexivity.
  - (* continue ; *)
    intros t tsemi Ht Hsemi rest D C b _. exists 1, C.
    rewrite ParseStatementOrDeclaration_S. cbn [app Tok Toks hd].
    rewrite Ht, ConsumeToken_cons, returning_Returned,
      AfterSwitch_semi by exact Hsemi.
    reflexivity.
  - (* break ; *)
    intros t tsemi Ht Hsemi rest D C b _. exists 1, C.
    rewrite ParseStatementOrDeclaration_S. cbn [app Tok Toks hd].
    rewrite Ht, ConsumeToken_cons, returning_Returned,
      AfterSwitch_semi by exact Hsemi.
    reflexivity.
  - (* return expression[opt] ; *)
    intros t tsemi e Ht He Hsemi rest D C b _.
    destruct (ParseReturnStatement_accepts X L t tsemi e rest D C Ht He Hsemi)
      as (C1 & H1).
    assert (E : (t :: e ++ [tsemi]) ++ rest = t :: e ++ tsemi :: rest)
      by (cbn [app]; rewrite <- app_assoc; reflexivity).
    exists 1, C1. rewrite E, ParseStatementOrDeclaration_S.
    cbn [Tok Toks hd]. rewrite Ht, H1, returning_Returned,
      AfterSwitch_semi by exact Hsemi.
    reflexivity.
  - (* no block item *)
    intros rest D C Hr. exists 1, C. cbn [app].
    rewrite ParseCompoundStatement_loop_S. unfold Tok. cbn [Toks].
    rewrite Hr. reflexivity.
  - (* a statement and more block items *)
    intros s items o Hs IHs Hitems IHitems rest D C Hr.
    destruct (IHs (items ++ rest) D C false) as (f1 & C1 & Hf1).
    { intros _. exact (BlockItems_no_else items rest Hitems Hr). }
    destruct (IHitems rest D C1 Hr) as (f2 & C2 & Hf2).
    exists (S (Nat.max f1 f2)), C2.
    rewrite <- app_assoc, ParseCompoundStatement_loop_S.
    rewrite (loop_condition_at_statement _
               (Statement_Tok o s (items ++ rest) D C Hs)).
    max_fuel Hf1. cbn [bind].
    exact (ParseCompoundStatement_loop_monotone X f2 (Nat.max f1 f2) _ _
             (Nat.le_max_r f1 f2) Hf2).
Qed.

End Acceptance.

(** X10: every statement of the grammar that the routines have a case for
    is accepted.  When the stream starts with such a statement, whose
    expressions and declarations are strings the collaborators take as a
    whole and without a diagnostic, and an [else] does not follow a statement
    that ends in an [if] without one, then the dispatcher, with enough call
    depth, consumes exactly the statement and reports nothing: what is left
    is what came after the statement, and the diagnostics are the ones that
    were there before. *)
Theorem statements_of_the_grammar_are_accepted :
  forall (X : Collaborators) (L : LangOptions) (o : bool)
         (s rest : list Token) (D : list Diagnostic) (C : list Call)
         (b : bool),
    Statement X L o s ->
    NoDanglingElse o rest ->
    exists (fuel : nat) (C' : list Call),
      ParseStatementOrDeclaration X fuel b (mkParser L (s ++ rest) D C) =
      Returned (mkParser L rest D C').
Proof.
  intros X L o s rest D C b Hs Hnd.
  exact (proj1 (statements_and_blocks_accepted X L) o s Hs rest D C b Hnd).
Qed.

Lemma statements_of_the_grammar_are_accepted_witness :
  (exists (fuel : nat) (C' : list Call),
     ParseStatementOrDeclaration sample fuel true
       (start [kw_if; l_paren; identifier; r_paren; semi; kw_else;
               l_brace; kw_break; semi; r_brace; kw_continue; semi]) =
     Returned
       (mkParser (mkLang true false) (located 11 [kw_continue; semi]) [] C'))
  /\
  (exists (fuel : nat) (C' : list Call),
     ParseStatementOrDeclaration sample fuel true
       (start [kw_for; l_paren; identifier; semi; semi; r_paren;
               kw_return; identifier; semi; kw_break]) =
     Returned (mkParser (mkLang true false) (located 10 [kw_break]) [] C')).
Proof.
  split.
  - apply (statements_of_the_grammar_are_accepted sample (mkLang true false)
             false
             (located 1 [kw_if; l_paren; identifier; r_paren; semi; kw_else;
                         l_brace; kw_break; semi; r_brace])
             (located 11 [kw_continue; semi]) [] [] true).
    + apply (Statement_if_else sample (mkLang true false)
               (mkToken kw_if 1) (mkToken kw_else 6)
               (located 2 [l_paren; identifier; r_paren])
               (located 5 [semi])
               (located 7 [l_brace; kw_break; semi; r_brace]) false).
      * reflexivity.
      * split; [reflexivity|intros rest; reflexivity].
      * apply (Statement_empty sample (mkLang true false) (mkToken semi 5)).
        reflexivity.
      * reflexivity.
      * apply (Statement_compound sample (mkLang true false)
                 (mkToken l_brace 7) (mkToken r_brace 10)
                 (located 8 [kw_break; semi])).
        -- reflexivity.
        -- apply (BlockItems_cons sample (mkLang true false)
                    (located 8 [kw_break; semi]) [] false).
           ++ apply (Statement_break sample (mkLang true false)
                       (mkToken kw_break 8) (mkToken semi 9)); reflexivity.
           ++ apply BlockItems_nil.
        -- reflexivity.
    + intros H. discriminate H.
  - apply (statements_of_the_grammar_are_accepted sample (mkLang true false)
             false
             (located 1 [kw_for; l_paren; identifier; semi; semi; r_paren;
                         kw_return; identifier; semi])
             (located 10 [kw_break]) [] [] true).
    + apply (Statement_for sample (mkLang true false)
               (mkToken kw_for 1) (mkToken l_paren 2) (mkToken semi 5)
               (mkToken r_paren 6)
               (located 3 [identifier; semi]) [] []
               (located 7 [kw_return; identifier; semi]) false).
      * reflexivity.
      * reflexivity.
      * apply (ForInit_expression sample (mkLang true false)
                 (located 3 [identifier]) (mkToken semi 4)).
        -- split; [simpl; discriminate|]. split; [discriminate|].
           intros t rest Ht. simpl. unfold expression_token.
           rewrite Ht. reflexivity.
        -- reflexivity.
        -- reflexivity.
      * apply OptExpression_none.
      * reflexivity.
      * apply OptExpression_none.
      * reflexivity.
      * apply (Statement_return sample (mkLang true false)
                 (mkToken kw_return 7) (mkToken semi 9)
                 (located 8 [identifier])).
        -- reflexivity.
        -- apply OptExpression_some.
           split; [simpl; discriminate|]. split; [discriminate|].
           intros t rest Ht. simpl. unfold expression_token.
           rewrite Ht. reflexivity.
        -- reflexivity.
    + intros H. discriminate H.
Defined.

(** ** A do statement without its semicolon *)

(** X11: a do statement that is well formed up to the closing parenthesis
    of its condition, but is not followed by a semicolon, gets exactly one
    diagnostic: the dispatcher reports the missing semicolon "after do/while
    loop" at the token that follows, and skips to the next semicolon. *)
Theorem do_statement_without_semicolon :
  forall (X : Collaborators) (L : LangOptions) (o : bool) (t tw : Token)
         (s c rest : list Token) (D : list Diagnostic) (C : list Call)
         (b : bool),
    Kind t = kw_do -> Statement X L o s -> Kind tw = kw_while ->
    ParenExpression X L c ->
    Kind (hd eof_token rest) <> semi ->
    exists (fuel : nat) (C' : list Call),
      ParseStatementOrDeclaration X fuel b
        (mkParser L (t :: s ++ tw :: c ++ rest) D C) =
      Returned
        (mkParser L (skipn (skipUntil X semi rest) rest)
           (D ++ [mkDiag (Loc (hd eof_token rest)) err_expected_semi_after
                         "do/while loop"])
           (C' ++ [CallSkipUntil semi])).
Proof.
  intros X L o t tw s c rest D C b Ht Hs Htw Hc Hrest.
  destruct (proj1 (statements_and_blocks_accepted X L) o s Hs
              (tw :: c ++ rest) D C true) as (f & C1 & Hf).
  { intros _. cbn [hd]. rewrite Htw. discriminate. }
  exists (S (S f)), (C1 ++ [CallParseParenExpression]).
  rewrite ParseStatementOrDeclaration_S. cbn [Tok Toks hd].
  rewrite Ht, ParseDoStatement_S. cbn [Tok Toks hd].
  destruct (TokenKind_eq_dec (Kind t) kw_do); [|contradiction].
  rewrite ConsumeToken_cons, Hf. cbn [bind Tok Toks hd].
  destruct (TokenKind_eq_dec (Kind tw) kw_while); [|contradiction].
  rewrite ConsumeToken_cons, (Kind_Tok_ParenExpression X L) by exact Hc.
  destruct (TokenKind_eq_dec l_paren l_paren) as [_|n]; [|congruence].
  rewrite (ParseParenExpression_consumes X L) by exact Hc.
  rewrite returning_Returned, AfterSwitch_not_semi by exact Hrest.
  rewrite SkipUntil_Diag. reflexivity.
Qed.

Lemma do_statement_without_semicolon_witness :
  exists (fuel : nat) (C' : list Call),
    ParseStatementOrDeclaration sample fuel true
      (start [kw_do; semi; kw_while; l_paren; identifier; r_paren;
              kw_break; semi; kw_continue]) =
    Returned
      (mkParser (mkLang true false) (located 9 [kw_continue])
         [mkDiag 7 err_expected_semi_after "do/while loop"]
         (C' ++ [CallSkipUntil semi])).
Proof.
  apply (do_statement_without_semicolon sample (mkLang true false) false
           (mkToken kw_do 1) (mkToken kw_while 3)
           (located 2 [semi]) (located 4 [l_paren; identifier; r_paren])
           (located 7 [kw_break; semi; kw_continue]) [] [] true).
  - reflexivity.
  - apply (Statement_empty sample (mkLang true false) (mkToken semi 2)).
    reflexivity.
  - reflexivity.
  - split; [reflexivity|intros rest; reflexivity].
  - simpl. discriminate.
Defined.

(** ** A goto without a label *)

(** X12: a [goto] that is followed at once by a semicolon is not diagnosed.
    The goto-routine consumes the keyword and, finding neither an identifier
    nor a star, nothing else; the dispatcher then finds the semicolon it
    looks for and consumes it.  The two tokens are gone, and nothing is
    reported or delegated. *)
Theorem goto_without_label_is_not_diagnosed :
  forall (X : Collaborators) (fuel : nat) (b : bool) (L : LangOptions)
         (t tsemi : Token) (rest : list Token) (D : list Diagnostic)
         (C : list Call),
    Kind t = kw_goto -> Kind tsemi = semi ->
    ParseStatementOrDeclaration X (S fuel) b
      (mkParser L (t :: tsemi :: rest) D C) =
    Returned (mkParser L rest D C).
Proof.
  intros X fuel b L t tsemi rest D C Ht Hsemi.
  rewrite ParseStatementOrDeclaration_S. cbn [Tok Toks hd]. rewrite Ht.
  unfold ParseGotoStatement. cbn [Tok Toks hd].
  destruct (TokenKind_eq_dec (Kind t) kw_goto); [|contradiction].
  cbv zeta. rewrite !ConsumeToken_cons. cbn [Tok Toks hd].
  destruct (TokenKind_eq_dec (Kind tsemi) identifier) as [e0|_];
    [rewrite Hsemi in e0; discriminate e0|].
  unfold isKind.
  destruct (TokenKind_eq_dec (Kind tsemi) star) as [e0|_];
    [rewrite Hsemi in e0; discriminate e0|].
  cbn [andb]. rewrite returning_Returned, AfterSwitch_semi by exact Hsemi.
  reflexivity.
Qed.

Lemma goto_without_label_is_not_diagnosed_witness :
  ParseStatementOrDeclaration sample 1 false
    (start [kw_goto; semi; kw_break; semi]) =
  Returned (mkParser (mkLang true false) (located 3 [kw_break; semi]) [] []).
Proof.
  apply (goto_without_label_is_not_diagnosed sample 0 false
           (mkLang true false) (mkToken kw_goto 1) (mkToken semi 2)
           (located 3 [kw_break; semi]) [] []); reflexivity.
Defined.
